(** * WhatsAppStickersConverter: a shallow embedding of
      src/WhatsAppStickersConverter.js

    The class turns a set of images into WhatsApp sticker packs.  Its
    methods are embedded as functions of a state-and-exception monad over
    a [World]: the loaded libwebp WebAssembly module (its linear memory
    and its private state), the log of the calls made through [this.api],
    the lines written with [console.error] and the events emitted on the
    [EventEmitter].

    JavaScript numbers that hold pointers, sizes, counts and indices are
    integers here ([Z] or [nat]); the [quality] variable of the encoding
    loop is a binary64 number and is kept as one ([PrimFloat.float]), so
    that [quality -= 0.08] and [Math.ceil(quality * 100)] are the IEEE 754
    operations the engine performs. *)

From Stdlib Require Import ZArith Floats.
From stdpp Require Import base list strings pretty.

Set Warnings "-inexact-float".
#[local] Open Scope Z_scope.

(** ** Values *)

Abbreviation byte := Byte.byte.

(** Errors that reach a [catch] or a promise rejection. *)
Inductive JsError : Type :=
| RangeError                 (* typed-array access outside the buffer *)
| TypeError                  (* property access on undefined or null *)
| InvalidCharacterError      (* [atob] of a string that is not base64 *)
| Error (message : string).  (* [new Error(message)] *)

(** What a collaborator outside this file hands back: an error or a value. *)
Definition result (A : Type) : Type := JsError + A.

(** A data URL [data:<mime>;base64,<btoa payload>].  The payload is kept as
    the bytes that [btoa] encoded, so
    [atob(url.replace(/^data:image\/[a-z]+;base64,/, '')).length] is the
    length of [payload]. *)
Record DataURL : Type := mkDataURL { mime : string; payload : list byte }.

Definition byteLength (url : DataURL) : Z := Z.of_nat (length (payload url)).

(** The letters [a-z]. *)
Definition is_a_to_z (c : Ascii.ascii) : bool :=
  (97 <=? Ascii.nat_of_ascii c)%nat && (Ascii.nat_of_ascii c <=? 122)%nat.

Fixpoint all_a_to_z (s : string) : bool :=
  match s with
  | EmptyString => true
  | String c rest => is_a_to_z c && all_a_to_z rest
  end.

(** Whether [/^data:image\/[a-z]+;base64,/] matches the whole head of a
    data URL of type [mime]: the type is [image/] and then one or more of
    the letters a to z. *)
Definition matches_image_head (mime : string) : bool :=
  let subtype := String.substring 6 (String.length mime - 6) mime in
  String.prefix "image/" mime
  && negb (String.eqb subtype EmptyString)
  && all_a_to_z subtype.

(** [atob(url.replace(/^data:image\/[a-z]+;base64,/, ''))].  When the
    pattern matches the whole head, what is left is the base64 text of the
    payload and [atob] gives the payload back.  In every other case a
    character that is not base64 stays in the string (the [:] after [data]
    when nothing is replaced, the [;] before [base64] when the pattern
    matched inside the type), and [atob] throws. *)
Definition atob_of (url : DataURL) : result (list byte) :=
  if matches_image_head (mime url) then inr (payload url)
  else inl InvalidCharacterError.

(** The browser's [ImageData]. *)
Record ImageData : Type := mkImageData { width : Z; height : Z; data : list byte }.

(** ** The libwebp module *)

(** [this.module]: the linear memory [HEAP8] and the module's own state. *)
Record Module (S : Type) : Type := mkModule { HEAP8 : list byte; native : S }.
Arguments mkModule {S} _ _.
Arguments HEAP8 {S} _.
Arguments native {S} _.

(** An exported function: it may trap, and it may change the module. *)
Definition Native (S A : Type) : Type := Module S -> result A * Module S.

(** The functions [init] wraps with [module.cwrap] into [this.api].
    [encode], [destroy_buffer] and [free_result] are wrapped with the
    return type [''], so whatever the C function returns is dropped. *)
Class Libwebp (S : Type) : Type := {
  version : Native S Z;
  create_buffer : Z -> Z -> Native S Z;
  create_buffer_with_size : Z -> Native S Z;
  destroy_buffer : Z -> Native S unit;
  encode : Z -> Z -> Z -> Z -> Native S unit;
  decode : Z -> Z -> Native S Z;
  free_result : Z -> Native S unit;
  get_encode_result_pointer : Native S Z;
  get_encode_result_size : Native S Z;
  get_decode_result_pointer : Native S Z;
  get_decode_result_width : Native S Z;
  get_decode_result_height : Native S Z
}.

(** A call through [this.api] that returned (with its result where it has
    one), or a call of [addNumberToTray]. *)
Inductive Call : Type :=
| call_create_buffer (w h p : Z)
| call_create_buffer_with_size (size p : Z)
| call_destroy_buffer (p : Z)
| call_encode (p w h quality : Z)
| call_decode (p len ret : Z)
| call_free_result (p : Z)
| call_get_encode_result_pointer (p : Z)
| call_get_encode_result_size (n : Z)
| call_get_decode_result_pointer (p : Z)
| call_get_decode_result_width (n : Z)
| call_get_decode_result_height (n : Z)
| call_addNumberToTray (text : string).

(** ** The world and the monad *)

(** A line of [console.error] in the encoding loop:
    [`${errorMsg}, resizing with quality ${quality}`]. *)
Record ConsoleError : Type := mkConsoleError { errorMsg_of : string; quality_of : float }.

(** The events of the emitter [convertImagesToPacks] returns. *)
Inductive Event : Type :=
| stickerLoad
| load (trays : list DataURL) (stickersInPack : list (list DataURL))
| error (e : JsError).

Record World (S : Type) : Type := mkWorld {
  module : Module S;
  calls : list Call;
  console : list ConsoleError;
  emitted : list Event
}.
Arguments mkWorld {S} _ _ _ _.
Arguments module {S} _.
Arguments calls {S} _.
Arguments console {S} _.
Arguments emitted {S} _.

(** How a computation ends.  [Unfinished] is not a JavaScript outcome: it
    marks a loop of the embedding that used up its fuel, and is shown below
    never to arise. *)
Inductive outcome (A : Type) : Type :=
| Ok (a : A)
| Throw (e : JsError)
| Unfinished.
Arguments Ok {A} _.
Arguments Throw {A} _.
Arguments Unfinished {A}.

Definition JS (S A : Type) : Type := World S -> outcome A * World S.

Definition ret {S A} (a : A) : JS S A := fun w => (Ok a, w).

Definition throw {S A} (e : JsError) : JS S A := fun w => (Throw e, w).

Definition bind {S A B} (m : JS S A) (k : A -> JS S B) : JS S B :=
  fun w =>
    match m w with
    | (Ok a, w') => k a w'
    | (Throw e, w') => (Throw e, w')
    | (Unfinished, w') => (Unfinished, w')
    end.

Notation "'let*' x ':=' m 'in' k" := (bind m (fun x => k))
  (at level 10, x name, m at level 100, k at level 200).
Notation "m ';;' k" := (bind m (fun _ => k))
  (at level 100, k at level 200, right associativity).

(** [try { m } catch (e) { h e }] *)
Definition try_catch {S A} (m : JS S A) (h : JsError -> JS S A) : JS S A :=
  fun w =>
    match m w with
    | (Throw e, w') => h e w'
    | r => r
    end.

Definition of_result {S A} (r : result A) : JS S A :=
  match r with
  | inl e => throw e
  | inr a => ret a
  end.

(** ** Numbers

    [Math.ceil] of a binary64 number, read off its sign, mantissa and
    exponent.  The program applies it to finite values only; on an
    infinity or a NaN (which JavaScript returns unchanged) the integer
    result is left at 0. *)
Definition Math_ceil (x : float) : Z :=
  match Prim2SF x with
  | S754_finite s m e =>
      let v := if s then Z.neg m else Z.pos m in
      if 0 <=? e then v * 2 ^ e else - ((- v) / 2 ^ (- e))
  | _ => 0
  end.

(** [Math.ceil(a / b)] for a length [a] (an integer below 2^32) and [b]
    one of 30 and 1024: the binary64 quotient is the exact quotient when
    that is an integer, and lies strictly between the same two integers
    otherwise, so its ceiling is the ceiling of the exact quotient. *)
Definition Math_ceil_div (a b : Z) : Z := - ((- a) / b).

(** [Math.floor(i / 30)] for an index [i], for the same reason. *)
Definition Math_floor_div (i b : nat) : nat := (i / b)%nat.

(** [`WebP size ${Math.ceil(byteLength / 1024)}kb exceeded 100kb`] *)
Definition errorMsg (byteLength : Z) : string :=
  "WebP size " +:+ pretty (Math_ceil_div byteLength 1024) +:+ "kb exceeded 100kb".

(** [const useChrome = false;] *)
Definition useChrome : bool := false.

(** [array.splice(start)] with one argument: the elements from [start] on
    are removed and returned; a negative [start] counts from the end.  The
    pair is what stays in the array and what is returned. *)
Definition splice {A} (start : Z) (array : list A) : list A * list A :=
  let len := Z.of_nat (length array) in
  let from := if start <? 0 then Z.max (len + start) 0 else Z.min start len in
  (take (Z.to_nat from) array, drop (Z.to_nat from) array).

(** [stickersInPack[k].push(sticker)]; a [TypeError] when there is no
    pack [k]. *)
Definition push_to {A} (k : nat) (sticker : A) (stickersInPack : list (list A))
    : result (list (list A)) :=
  match stickersInPack !! k with
  | Some _ => inr (alter (fun pack => pack ++ [sticker]) k stickersInPack)
  | None => inl TypeError
  end.

(** "balance stickers if the last pack has less than 3 images" *)
Definition balance {A} (numOfPacks : nat) (stickersInPack : list (list A))
    : result (list (list A)) :=
  if (1 <? numOfPacks)%nat then
    match stickersInPack !! (numOfPacks - 1)%nat with
    | None => inl TypeError
    | Some last =>
        if (length last <? 3)%nat then
          match stickersInPack !! (numOfPacks - 2)%nat with
          | None => inl TypeError
          | Some donor =>
              let '(kept, moved) := splice (- (3 - Z.of_nat (length last))) donor in
              inr (<[(numOfPacks - 1)%nat := moved ++ last]>
                     (<[(numOfPacks - 2)%nat := kept]> stickersInPack))
          end
        else inr stickersInPack
    end
  else inr stickersInPack.

(** [Math.ceil(stickersFiles.length / 30)] *)
Definition numOfPacks_for (count : nat) : nat :=
  Z.to_nat (Math_ceil_div (Z.of_nat count) 30).

(** The [type] argument of [processImageFile]: ['tray'] or ['stickers']. *)
Inductive ImageType : Type := Tray | Stickers.

(** ** Collaborators outside the file

    Jimp, the [FileReader], the canvas and the PNG encoder of the browser.
    [File] is what the caller passes in (a [Blob]); [Image] is Jimp's image. *)
Class Browser (File Image : Type) : Type := {
  (* [reader.readAsArrayBuffer(file)], then [Jimp.read(reader.result)] *)
  Jimp_read : File -> result Image;
  (* [image.contain(w, h)] *)
  contain : Image -> Z -> Z -> Image;
  (* the bytes behind [image.getBase64Async(Jimp.MIME_PNG)] *)
  getBase64_PNG : Image -> list byte;
  (* [dataURLToCanvasContext(url)], then
     [context.getImageData(0, 0, canvas.width, canvas.height)] *)
  getImageData : DataURL -> ImageData;
  (* the bytes behind [canvas.toDataURL('image/webp', quality)] *)
  toDataURL_webp : DataURL -> float -> list byte;
  (* [new ImageData(result, width, height)], [putImageData], and the bytes
     behind [canvas.toDataURL('image/png')] *)
  putImageData_PNG : list byte -> Z -> Z -> result (list byte);
  (* the drawing of [addNumberToTray(url, text)] and the bytes behind its
     [canvas.toDataURL('image/png')] *)
  drawNumber_PNG : DataURL -> string -> list byte
}.

Section Converter.
Context {S : Type} `{Libwebp S} {File Image : Type} `{Browser File Image}.

Definition set_module (m : Module S) (w : World S) : World S :=
  mkWorld m (calls w) (console w) (emitted w).

Definition log_call (c : Call) (w : World S) : World S :=
  mkWorld (module w) (calls w ++ [c]) (console w) (emitted w).

(** A call through [this.api]: run the export on the module; when it
    returns, log the call. *)
Definition api {A} (f : Native S A) (c : A -> Call) : JS S A :=
  fun w =>
    match f (module w) with
    | (inr a, m) => (Ok a, log_call (c a) (set_module m w))
    | (inl e, m) => (Throw e, set_module m w)
    end.

(** [this.module.HEAP8.set(src, offset)]: a [RangeError] when the source
    does not fit behind [offset]. *)
Definition HEAP8_set (src : list byte) (offset : Z) : JS S unit :=
  fun w =>
    let heap := HEAP8 (module w) in
    if (0 <=? offset) && (offset + Z.of_nat (length src) <=? Z.of_nat (length heap))
    then
      let o := Z.to_nat offset in
      (Ok tt, set_module (mkModule (take o heap ++ src ++ drop (o + length src)%nat heap)
                                   (native (module w))) w)
    else (Throw RangeError, w).

(** [new Uint8Array(new Uint8Array(this.module.HEAP8.buffer, pointer, size))]
    (or [Uint8ClampedArray]): the view is a [RangeError] when the region
    leaves the buffer; the outer constructor copies it. *)
Definition copy_out (pointer size : Z) : JS S (list byte) :=
  fun w =>
    let heap := HEAP8 (module w) in
    if (0 <=? pointer) && (0 <=? size) && (pointer + size <=? Z.of_nat (length heap))
    then (Ok (take (Z.to_nat size) (drop (Z.to_nat pointer) heap)), w)
    else (Throw RangeError, w).

Definition convertImageDataToWebpURL (imageData : ImageData) (quality : Z) : JS S DataURL :=
  let* p := api (create_buffer (width imageData) (height imageData))
                (call_create_buffer (width imageData) (height imageData)) in
  HEAP8_set (data imageData) p;;
  api (encode p (width imageData) (height imageData) quality)
      (fun _ => call_encode p (width imageData) (height imageData) quality);;
  let* resultPointer := api get_encode_result_pointer call_get_encode_result_pointer in
  let* resultSize := api get_encode_result_size call_get_encode_result_size in
  let* result := copy_out resultPointer resultSize in
  api (free_result resultPointer) (fun _ => call_free_result resultPointer);;
  api (destroy_buffer p) (fun _ => call_destroy_buffer p);;
  ret (mkDataURL "image/webp" result).

Definition convertWebpURLToPngURL (url : DataURL) : JS S DataURL :=
  let* bytes := of_result (atob_of url) in
  let len := Z.of_nat (length bytes) in
  let* p := api (create_buffer_with_size len) (call_create_buffer_with_size len) in
  HEAP8_set bytes p;;
  api (decode p len) (call_decode p len);;
  let* resultPointer := api get_decode_result_pointer call_get_decode_result_pointer in
  let* width := api get_decode_result_width call_get_decode_result_width in
  let* height := api get_decode_result_height call_get_decode_result_height in
  let resultSize := width * height * 4 in
  let* result := copy_out resultPointer resultSize in
  api (free_result resultPointer) (fun _ => call_free_result resultPointer);;
  api (destroy_buffer p) (fun _ => call_destroy_buffer p);;
  let* png := of_result (putImageData_PNG result width height) in
  ret (mkDataURL "image/png" png).

(** ** The quality-constrained encoder *)

Definition console_error (line : ConsoleError) : JS S unit :=
  fun w => (Ok tt, mkWorld (module w) (calls w) (console w ++ [line]) (emitted w)).

(** The [while (true)] of [resizeAndConvert], entered with the current
    [quality]; [url] is the PNG data URL drawn on the canvas and
    [imageData] its pixels.  [fuel] bounds the number of rounds. *)
Fixpoint encodeLoop (fuel : nat) (url : DataURL) (imageData : ImageData)
    (quality : float) : JS S DataURL :=
  match fuel with
  | O => fun w => (Unfinished, w)
  | Datatypes.S fuel' =>
      let* webpUrl :=
        if useChrome
        then ret (mkDataURL "image/webp" (toDataURL_webp url quality))
        else convertImageDataToWebpURL imageData (Math_ceil (quality * 100)%float) in
      let byteLength := byteLength webpUrl in
      if byteLength <=? 100000 then ret webpUrl
      else
        let quality := (quality - 0.08)%float in
        let errorMsg := errorMsg byteLength in
        if (quality <=? 0.07)%float
        then throw (Error ("Error converting files, " +:+ errorMsg))
        else
          console_error (mkConsoleError errorMsg quality);;
          encodeLoop fuel' url imageData quality
  end.

(** Rounds granted to the loop; no run needs a thirteenth
    ([encodeLoop_finishes]). *)
Definition rounds : nat := 12.

(** [input] is the file whose bytes [processImageFile] read. *)
Definition resizeAndConvert (input : File) (px : Z) (toWebp : bool) : JS S DataURL :=
  let* _image := of_result (Jimp_read input) in
  let image := contain _image px px in
  let b64 := mkDataURL "image/png" (getBase64_PNG image) in
  if toWebp
  then
    let imageData := getImageData b64 in
    let quality := 1.0%float in
    encodeLoop rounds b64 imageData quality
  else ret b64.

Definition processImageFile (file : File) (type : ImageType) : JS S DataURL :=
  match type with
  | Tray => resizeAndConvert file 96 false
  | Stickers => resizeAndConvert file 512 true
  end.

(** ** Packs *)

Definition addNumberToTray (url : DataURL) (text : string) : JS S DataURL :=
  fun w => (Ok (mkDataURL "image/png" (drawNumber_PNG url text)),
            log_call (call_addNumberToTray text) w).

Definition emit (ev : Event) : JS S unit :=
  fun w => (Ok tt, mkWorld (module w) (calls w) (console w) (emitted w ++ [ev])).

(** [stickersInPack.map((pack, index) => ...)] under [Promise.all]: the
    calls start in index order. *)
Fixpoint makeTrays (numOfPacks : nat) (tray : DataURL) (index : nat)
    (stickersInPack : list (list DataURL)) : JS S (list DataURL) :=
  match stickersInPack with
  | [] => ret []
  | _ :: later =>
      let* t := if (numOfPacks =? 1)%nat then ret tray
                else addNumberToTray tray (pretty (index + 1)%nat) in
      let* ts := makeTrays numOfPacks tray (Datatypes.S index) later in
      ret (t :: ts)
  end.

(** The [for] loop over [stickersFiles], from index [i] on. *)
Fixpoint loadStickers (files : list File) (i : nat)
    (stickersInPack : list (list DataURL)) : JS S (list (list DataURL)) :=
  match files with
  | [] => ret stickersInPack
  | file :: later =>
      let* sticker := processImageFile file Stickers in
      emit stickerLoad;;
      let* stickersInPack :=
        of_result (push_to (Math_floor_div i 30) sticker stickersInPack) in
      loadStickers later (Datatypes.S i) stickersInPack
  end.

(** The body of the [async] function; the emitter is the [emitted] list of
    the world. *)
Definition convertImagesToPacks (trayFile : File) (stickersFiles : list File) : JS S unit :=
  try_catch
    (let* tray := processImageFile trayFile Tray in
     let numOfPacks := numOfPacks_for (length stickersFiles) in
     let stickersInPack := replicate numOfPacks [] in
     let* trays := makeTrays numOfPacks tray 0 stickersInPack in
     let* stickersInPack := loadStickers stickersFiles 0 stickersInPack in
     let* stickersInPack := of_result (balance numOfPacks stickersInPack) in
     emit (load trays stickersInPack))
    (fun e => emit (error e)).

End Converter.

(** ** The archive *)

(** JSZip: [loadAsync] gives the archive as its entries in the order
    [zip.forEach] visits them, each a name and the blob that
    [zip.file(name).async('blob')] resolves to. *)
Class JSZip (Data Blob : Type) : Type := {
  loadAsync : Data -> result (list (string * Blob))
}.

Definition startsWith (s prefix : string) : bool := String.prefix prefix s.

Definition endsWith (s suffix : string) : bool :=
  (String.length suffix <=? String.length s)%nat
  && String.eqb
       (String.substring (String.length s - String.length suffix) (String.length suffix) s)
       suffix.

(** The test of the [zip.forEach] callback. *)
Definition isImagePath (relativePath : string) : bool :=
  negb (startsWith relativePath "__MACOSX")
  && (endsWith relativePath ".png" || endsWith relativePath ".jpg").

(** [zip.file(path)]: the entry of that name, or [null]. *)
Definition zip_file {Blob} (zip : list (string * Blob)) (path : string) : option Blob :=
  snd <$> List.find (fun entry => String.eqb (fst entry) path) zip.

(** [zip.file(path).async('blob')]; a [TypeError] on [null]. *)
Definition file_blob {Blob} (zip : list (string * Blob)) (path : string) : result Blob :=
  match zip_file zip path with
  | Some blob => inr blob
  | None => inl TypeError
  end.

Fixpoint all_blobs {Blob} (zip : list (string * Blob)) (paths : list string)
    : result (list Blob) :=
  match paths with
  | [] => inr []
  | path :: later =>
      match file_blob zip path with
      | inl e => inl e
      | inr blob =>
          match all_blobs zip later with
          | inl e => inl e
          | inr blobs => inr (blob :: blobs)
          end
      end
  end.

Record Unzipped (Blob : Type) : Type := mkUnzipped {
  trayFile : Blob;
  stickersFiles : list Blob
}.
Arguments mkUnzipped {Blob} _ _.
Arguments trayFile {Blob} _.
Arguments stickersFiles {Blob} _.

Section Unzip.
Context {Data Blob : Type} `{JSZip Data Blob}.

Definition unzip (data : Data) : result (Unzipped Blob) :=
  match loadAsync data with
  | inl e => inl e
  | inr zip =>
      let imagePaths := List.filter isImagePath (map fst zip) in
      if (length imagePaths <? 3)%nat
      then inl (Error "Less than 3 images are found!")
      else
        match imagePaths with
        | [] => inl TypeError
        | first :: _ =>
            match file_blob zip first with
            | inl e => inl e
            | inr tray =>
                match all_blobs zip imagePaths with
                | inl e => inl e
                | inr stickers => inr (mkUnzipped tray stickers)
                end
            end
        end
  end.

End Unzip.

(** ** A scripted module and a scripted browser

    [scripted size_for result_at] is a libwebp whose [encode] records a
    result of [size_for quality] bytes at address [result_at]; its state is
    the recorded size.  Input buffers are handed out at address 0; a decoded
    image is 1 x 1. *)
Definition scripted (size_for : Z -> Z) (result_at : Z) : Libwebp Z := {|
  version := fun m => (inr 1, m);
  create_buffer := fun _ _ m => (inr 0, m);
  create_buffer_with_size := fun _ m => (inr 0, m);
  destroy_buffer := fun _ m => (inr tt, m);
  encode := fun _ _ _ quality m => (inr tt, mkModule (HEAP8 m) (size_for quality));
  decode := fun _ _ m => (inr 1, m);
  free_result := fun _ m => (inr tt, m);
  get_encode_result_pointer := fun m => (inr result_at, m);
  get_encode_result_size := fun m => (inr (native m), m);
  get_decode_result_pointer := fun m => (inr result_at, m);
  get_decode_result_width := fun m => (inr 1, m);
  get_decode_result_height := fun m => (inr 1, m)
|}.

(** A world whose module has [heap_size] zero bytes of memory. *)
Definition fresh (heap_size : Z) : World Z :=
  mkWorld (mkModule (replicate (Z.to_nat heap_size) Byte.x00) 0) [] [] [].

Definition one_pixel : ImageData :=
  mkImageData 1 1 [Byte.x00; Byte.x00; Byte.x00; Byte.x00].

(** A browser in which a file is a number [n]: Jimp reads it as an image
    whose PNG has [n] bytes; every canvas is one pixel, and a numbered tray
    has the bytes of the tray. *)
Definition numbered : Browser nat nat := {|
  Jimp_read := fun n => inr n;
  contain := fun image _ _ => image;
  getBase64_PNG := fun image => replicate image Byte.x00;
  getImageData := fun _ => one_pixel;
  toDataURL_webp := fun _ _ => [];
  putImageData_PNG := fun bytes _ _ => inr bytes;
  drawNumber_PNG := fun url _ => payload url
|}.

(** An archive is its own entry list. *)
Definition listed : JSZip (list (string * nat)) nat := {|
  loadAsync := fun entries => inr entries
|}.

(** A conversion to try things on: a module that encodes every image to
    10 bytes, a tray file and 31 sticker files of one byte each. *)
Definition ten_bytes : Libwebp Z := scripted (fun _ => 10) 0.

Definition thirty_one_files : list nat := replicate 31 1%nat.

Definition small_sticker : DataURL := mkDataURL "image/webp" (replicate 10 Byte.x00).

Definition small_tray : DataURL := mkDataURL "image/png" [Byte.x00].

Definition thirty_one_converted : World Z :=
  snd (@convertImagesToPacks Z ten_bytes nat nat numbered 1%nat thirty_one_files (fresh 16)).

(** ** Reading the call log *)

(** The address a call allocated, if it allocated. *)
Definition allocated (c : Call) : option Z :=
  match c with
  | call_create_buffer _ _ p => Some p
  | call_create_buffer_with_size _ p => Some p
  | _ => None
  end.

Definition allocations (cs : list Call) : list Z := omap allocated cs.

Definition is_release (c : Call) : bool :=
  match c with
  | call_free_result _ | call_destroy_buffer _ => true
  | _ => false
  end.

Definition releases (cs : list Call) : list Call := List.filter is_release cs.

(** The address the module reported for its result. *)
Definition result_pointer (c : Call) : option Z :=
  match c with
  | call_get_encode_result_pointer p => Some p
  | call_get_decode_result_pointer p => Some p
  | _ => None
  end.

(** The qualities [encode] was called with. *)
Definition encode_quality (c : Call) : option Z :=
  match c with
  | call_encode _ _ _ quality => Some quality
  | _ => None
  end.

Definition encode_qualities (cs : list Call) : list Z := omap encode_quality cs.

(** The sizes the module recorded for its encoded results. *)
Definition encode_size (c : Call) : option Z :=
  match c with
  | call_get_encode_result_size n => Some n
  | _ => None
  end.

(** The texts [addNumberToTray] was called with. *)
Definition overlay_text (c : Call) : option string :=
  match c with
  | call_addNumberToTray text => Some text
  | _ => None
  end.

Definition overlay_texts (cs : list Call) : list string := omap overlay_text cs.

(** The export [f] traps with [e] in some state of the module. *)
Definition traps {S A} (f : Native S A) (e : JsError) : Prop :=
  exists m m', f m = (inl e, m').

(** The value of [quality] in round [k] of the loop (rounds count from 0). *)
Definition quality_in_round (k : nat) : float :=
  Nat.iter k (fun quality => (quality - 0.08)%float) 1.0%float.

(** The part of the log a computation added. *)
Definition added {S} (w w1 : World S) (cs : list Call) : Prop :=
  calls w1 = calls w ++ cs.

(** The integer quality round [k] passes to the codec bridge. *)
Definition passed_in_round (k : nat) : Z :=
  Math_ceil (quality_in_round k * 100)%float.

(** The [console.error] lines of the retries that follow round [k], one for
    each size in [sizes]. *)
Fixpoint retry_lines (k : nat) (sizes : list Z) : list ConsoleError :=
  match sizes with
  | [] => []
  | size :: later =>
      mkConsoleError (errorMsg size) (quality_in_round (Datatypes.S k))
        :: retry_lines (Datatypes.S k) later
  end.

(** The pushes of [loadStickers] alone: sticker number [i], [i + 1], ...
    goes to pack [Math.floor(i / 30)]. *)
Fixpoint distribute {A} (stickers : list A) (i : nat) (stickersInPack : list (list A))
    : result (list (list A)) :=
  match stickers with
  | [] => inr stickersInPack
  | sticker :: later =>
      match push_to (Math_floor_div i 30) sticker stickersInPack with
      | inl e => inl e
      | inr stickersInPack => distribute later (Datatypes.S i) stickersInPack
      end
  end.

(** The trays of [count] packs made from [tray]. *)
Definition trays_for `{Browser File Image} (count : nat) (tray : DataURL) : list DataURL :=
  if (count =? 1)%nat then [tray]
  else map (fun index => mkDataURL "image/png"
                           (drawNumber_PNG tray (pretty (index + 1)%nat)))
           (seq 0 count).

(** The texts [addNumberToTray] is called with for [count] packs. *)
Definition numbers_for (count : nat) : list string :=
  if (count =? 1)%nat then []
  else map (fun index => pretty (index + 1)%nat) (seq 0 count).

(** The size of chunk [j] when [count] stickers are cut into chunks of 30. *)
Definition chunk_size (count j : nat) : nat := (30 `min` (count - 30 * j))%nat.
Arguments chunk_size : simpl never.

(** What the quality-constrained encoder lets through. *)
Definition size_constrained (url : DataURL) : Prop :=
  mime url = "image/webp" /\ byteLength url <= 100000.

(** The buffer a call destroyed, and the result a call freed. *)
Definition destroyed (c : Call) : option Z :=
  match c with
  | call_destroy_buffer p => Some p
  | _ => None
  end.

Definition freed (c : Call) : option Z :=
  match c with
  | call_free_result p => Some p
  | _ => None
  end.

(** The calls of one encode call that returned. *)
Definition encode_block (width height quality p rp size : Z) : list Call :=
  [call_create_buffer width height p;
   call_encode p width height quality;
   call_get_encode_result_pointer rp;
   call_get_encode_result_size size;
   call_free_result rp;
   call_destroy_buffer p].

(** Such calls, for a quality the loop can pass. *)
Definition is_encode_block (cs : list Call) : Prop :=
  exists width height quality p rp size,
    cs = encode_block width height quality p rp size
    /\ 13 <= quality <= 100.

(** Sticker files for three packs. *)
Definition sixty_one_files : list nat := replicate 61 1%nat.

(** ** Reading the memory *)

(** The region of [size] bytes at [pointer] lies in the memory of [m]. *)
Definition in_heap {S} (pointer size : Z) (m : Module S) : Prop :=
  0 <= pointer /\ 0 <= size /\ pointer + size <= Z.of_nat (length (HEAP8 m)).

(** The bytes of that region. *)
Definition region {S} (pointer size : Z) (m : Module S) : list byte :=
  take (Z.to_nat size) (drop (Z.to_nat pointer) (HEAP8 m)).

(** The module after [HEAP8.set(src, offset)] has returned. *)
Definition heap_write {S} (src : list byte) (offset : Z) (m : Module S) : Module S :=
  let o := Z.to_nat offset in
  mkModule (take o (HEAP8 m) ++ src ++ drop (o + length src)%nat (HEAP8 m)) (native m).

(** ** The packs as arrays

    The packs of [stickersInPack] are array objects.  [arrays] holds the
    contents of every array there is, a pack is the index of its array in
    [arrays], and [stickersInPack] is the list of its packs.  These are
    lines 244 to 249 on such arrays: the length of the last pack is read,
    [splice] shortens the array it is called on, the last pack is read
    again for the second spread, and the array literal is a new array,
    stored as the last pack.  (The [TypeError] for a pack that is no array
    of [arrays] stands for nothing in the program: no such pack arises.) *)
Definition balance_in_place {A} (numOfPacks : nat) (stickersInPack : list nat)
    (arrays : list (list A)) : result (list nat * list (list A)) :=
  if (1 <? numOfPacks)%nat then
    match stickersInPack !! (numOfPacks - 1)%nat with
    | None => inl TypeError
    | Some last =>
        match arrays !! last with
        | None => inl TypeError
        | Some last_read =>
            if (length last_read <? 3)%nat then
              match stickersInPack !! (numOfPacks - 2)%nat with
              | None => inl TypeError
              | Some donor =>
                  match arrays !! donor with
                  | None => inl TypeError
                  | Some donor_read =>
                      let '(kept, moved) :=
                        splice (- (3 - Z.of_nat (length last_read))) donor_read in
                      let arrays := <[donor := kept]> arrays in
                      match arrays !! last with
                      | None => inl TypeError
                      | Some last_again =>
                          inr (<[(numOfPacks - 1)%nat := length arrays]> stickersInPack,
                               arrays ++ [moved ++ last_again])
                      end
                  end
              end
            else inr (stickersInPack, arrays)
        end
    end
  else inr (stickersInPack, arrays).

(** What the packs hold. *)
Definition packs_of {A} (stickersInPack : list nat) (arrays : list (list A))
    : list (list A) :=
  map (fun pack => default [] (arrays !! pack)) stickersInPack.

Section Reading.
Context {S : Type} `{Libwebp S}.

(** The errors the exports used by [convertImageDataToWebpURL] can trap with. *)
Definition encode_traps (imageData : ImageData) (quality : Z) (e : JsError) : Prop :=
  traps (create_buffer (width imageData) (height imageData)) e
  \/ (exists p, traps (encode p (width imageData) (height imageData) quality) e)
  \/ traps get_encode_result_pointer e
  \/ traps get_encode_result_size e
  \/ (exists p, traps (free_result p) e)
  \/ (exists p, traps (destroy_buffer p) e).

(** [w1] is the world an encode call left behind when it returned an image
    of [size] bytes. *)
Definition last_encoded (imageData : ImageData) (size : Z) (w1 : World S) : Prop :=
  exists quality w url,
    convertImageDataToWebpURL imageData quality w = (Ok url, w1)
    /\ byteLength url = size.

(** [w1] is the world an encode call left behind when it threw [e]. *)
Definition encode_threw (imageData : ImageData) (quality : Z) (e : JsError)
    (w1 : World S) : Prop :=
  exists w, convertImageDataToWebpURL imageData quality w = (Throw e, w1).

(** The same module with another [destroy_buffer]. *)
Definition with_destroy_buffer (d : Z -> Native S unit) : Libwebp S := {|
  version := version;
  create_buffer := create_buffer;
  create_buffer_with_size := create_buffer_with_size;
  destroy_buffer := d;
  encode := encode;
  decode := decode;
  free_result := free_result;
  get_encode_result_pointer := get_encode_result_pointer;
  get_encode_result_size := get_encode_result_size;
  get_decode_result_pointer := get_decode_result_pointer;
  get_decode_result_width := get_decode_result_width;
  get_decode_result_height := get_decode_result_height
|}.

(** Lines 94 to 101 on the module, when every step returns: from the
    module [m], [create_buffer] gives [p], the pixels are written at [p],
    [encode] runs on that memory, the module reports a result of [size]
    bytes at [rp], [result] is the copy of that region as the memory then
    is, and [free_result(rp)] leaves the module [m']. *)
Definition encode_steps (imageData : ImageData) (quality : Z) (m : Module S)
    (p rp size : Z) (result : list byte) (m' : Module S) : Prop :=
  exists m1 m3 m4 m5,
    create_buffer (width imageData) (height imageData) m = (inr p, m1)
    /\ in_heap p (Z.of_nat (length (data imageData))) m1
    /\ encode p (width imageData) (height imageData) quality
         (heap_write (data imageData) p m1) = (inr tt, m3)
    /\ get_encode_result_pointer m3 = (inr rp, m4)
    /\ get_encode_result_size m4 = (inr size, m5)
    /\ in_heap rp size m5
    /\ result = region rp size m5
    /\ free_result rp m5 = (inr tt, m').

(** Lines 113 to 123 on the module, when every step returns: [bytes] are
    written to the buffer [p] of their length, [decode] returns [ret], the
    module reports a result of [width] by [height] pixels at [rp],
    [result] is the copy of the [width * height * 4] bytes there, and
    [free_result(rp)] leaves the module [m']. *)
Definition decode_steps (bytes : list byte) (m : Module S)
    (p ret rp width height : Z) (result : list byte) (m' : Module S) : Prop :=
  exists m1 m3 m4 m5 m6,
    create_buffer_with_size (Z.of_nat (length bytes)) m = (inr p, m1)
    /\ in_heap p (Z.of_nat (length bytes)) m1
    /\ decode p (Z.of_nat (length bytes)) (heap_write bytes p m1) = (inr ret, m3)
    /\ get_decode_result_pointer m3 = (inr rp, m4)
    /\ get_decode_result_width m4 = (inr width, m5)
    /\ get_decode_result_height m5 = (inr height, m6)
    /\ in_heap rp (width * height * 4) m6
    /\ result = region rp (width * height * 4) m6
    /\ free_result rp m6 = (inr tt, m').

End Reading.

(** A module that encodes to 10 bytes and whose [destroy_buffer] traps,
    leaving 777 as the module's state. *)
Definition destroy_traps : Libwebp Z :=
  @with_destroy_buffer Z ten_bytes
    (fun _ m => (inl (Error "destroy_buffer"), mkModule (HEAP8 m) 777)).

Section ReadingPacks.
Context {S : Type} `{Libwebp S} {File Image : Type} `{Browser File Image}.

(** [sticker] is what [processImageFile(file, 'stickers')] resolved to in
    some world. *)
Definition processed (file : File) (sticker : DataURL) : Prop :=
  exists (w w1 : World S), processImageFile file Stickers w = (Ok sticker, w1).

(** [e] is what [processImageFile] threw for some file in some world. *)
Definition failed_with (e : JsError) : Prop :=
  exists (file : File) type (w w1 : World S),
    processImageFile file type w = (Throw e, w1).

(** The last event on the emitter. *)
Definition outcome_of (w : World S) : option Event := last (emitted w).

End ReadingPacks.

(** * Properties *)

(** ** The definitions at work *)

Example Math_ceil_of_a_whole_number : Math_ceil 92.0%float = 92.
Proof. reflexivity. Qed.

Example Math_ceil_just_above : Math_ceil 84.00000000000001%float = 85.
Proof. reflexivity. Qed.

Example Math_ceil_below_zero : Math_ceil (-3.9999999999999827)%float = -3.
Proof. reflexivity. Qed.

Example errorMsg_for_100001_bytes : errorMsg 100001 = "WebP size 98kb exceeded 100kb".
Proof. vm_compute. reflexivity. Qed.

Example splice_takes_the_last_two :
  splice (-2) [1; 2; 3; 4; 5] = ([1; 2; 3], [4; 5]).
Proof. reflexivity. Qed.

Example splice_beyond_the_front : splice (-7) [1; 2; 3] = ([], [1; 2; 3]).
Proof. reflexivity. Qed.

Example numOfPacks_for_some :
  map numOfPacks_for [0; 1; 3; 30; 31; 60; 61]%nat = [0; 1; 1; 1; 2; 2; 3]%nat.
Proof. reflexivity. Qed.

Example balance_of_30_and_1 :
  balance 2 [seq 0 30; [30]]%nat = inr [seq 0 28; [28; 29; 30]]%nat.
Proof. reflexivity. Qed.

Example balance_leaves_30_and_3 :
  balance 2 [seq 0 30; [30; 31; 32]]%nat = inr [seq 0 30; [30; 31; 32]]%nat.
Proof. reflexivity. Qed.

Example isImagePath_of_some :
  map isImagePath ["a.png"; "dir/b.jpg"; "__MACOSX/._a.png"; "c.PNG"; "d.jpeg"; ".png"]
  = [true; true; false; false; false; true].
Proof. reflexivity. Qed.

Example matches_image_head_of_some :
  map matches_image_head
    ["image/webp"; "image/png"; "image/svg+xml"; "image/"; "text/plain"; "image/PNG";
     "image/a;base64,b"]
  = [true; true; false; false; false; false; false].
Proof. reflexivity. Qed.

(** The URLs of the encoding loop are of type [image/webp]: their [atob]
    is the payload, whose length the loop compares with 100,000. *)
Lemma atob_of_a_webp_url bytes :
  atob_of (mkDataURL "image/webp" bytes) = inr bytes.
Proof. reflexivity. Qed.

(** ** The monad *)

Lemma bind_inv {S A B} (m : JS S A) (k : A -> JS S B) w r w2 :
  bind m k w = (r, w2) ->
  (exists a w1, m w = (Ok a, w1) /\ k a w1 = (r, w2))
  \/ (exists e, m w = (Throw e, w2) /\ r = Throw e)
  \/ (m w = (Unfinished, w2) /\ r = Unfinished).
Proof.
  unfold bind. destruct (m w) as [[a|e|] w1]; intros E.
  - left. eauto.
  - right; left. inversion E; subst. eauto.
  - right; right. inversion E; subst. eauto.
Qed.

Lemma of_result_inv {S A} (x : result A) (w : World S) r w1 :
  of_result x w = (r, w1) ->
  w1 = w /\ ((exists a, x = inr a /\ r = Ok a) \/ (exists e, x = inl e /\ r = Throw e)).
Proof.
  destruct x as [e|a]; cbn; intros E; inversion E; subst; split; eauto.
Qed.

Section Facts.
Context {S : Type} `{Libwebp S} {File Image : Type} `{Browser File Image}.

Lemma added_nil (w : World S) : added w w [].
Proof. unfold added. by rewrite app_nil_r. Qed.

Lemma added_app (w w1 w2 : World S) cs ds : added w w1 cs -> added w1 w2 ds -> added w w2 (cs ++ ds).
Proof. unfold added. intros -> ->. by rewrite app_assoc. Qed.

Lemma added_inj (w w1 : World S) cs ds : added w w1 cs -> added w w1 ds -> cs = ds.
Proof. unfold added. intros -> E. by apply app_inv_head in E. Qed.

Lemma api_inv {A} (f : Native S A) (c : A -> Call) (w : World S) r w1 :
  api f c w = (r, w1) ->
  console w1 = console w /\ emitted w1 = emitted w
  /\ ((exists a, r = Ok a /\ added w w1 [c a])
      \/ (exists e, r = Throw e /\ traps f e /\ added w w1 [])).
Proof.
  unfold api. destruct (f (module w)) as [[e|a] m] eqn:E; intros R; inversion R; subst; cbn.
  - split_and!; try done. right. exists e. split_and!; try done.
    + by exists (module w), m.
    + unfold added; cbn. by rewrite app_nil_r.
  - split_and!; try done. left. by exists a.
Qed.

Lemma HEAP8_set_inv src offset (w : World S) r w1 :
  HEAP8_set src offset w = (r, w1) ->
  console w1 = console w /\ emitted w1 = emitted w /\ added w w1 []
  /\ (r = Ok tt \/ r = Throw RangeError).
Proof.
  unfold HEAP8_set, added. case_match; intros R; inversion R; subst; cbn;
    rewrite app_nil_r; auto.
Qed.

Lemma copy_out_inv pointer size (w : World S) r w1 :
  copy_out pointer size w = (r, w1) ->
  w1 = w
  /\ ((exists bytes, r = Ok bytes /\ Z.of_nat (length bytes) = size)
      \/ r = Throw RangeError).
Proof.
  unfold copy_out. case_match eqn:E; intros R; inversion R; subst; split; auto.
  left. eexists; split; [done|].
  apply andb_prop in E as [E E3]. apply andb_prop in E as [E1 E2].
  rewrite length_take, length_drop. lia.
Qed.

End Facts.

(** Splitting a run at its first step, and reading one step. *)
Ltac run_steps :=
  repeat match goal with
  | R : bind _ _ _ = _ |- _ =>
      let Hm := fresh "Hm" in
      apply bind_inv in R as [(? & ? & Hm & R) | [(? & Hm & ?) | (Hm & ?)]];
      simplify_eq
  | Hm : api _ _ _ = _ |- _ =>
      apply api_inv in Hm as (? & ? & [(? & ? & ?) | (? & ? & ? & ?)]); simplify_eq
  | Hm : HEAP8_set _ _ _ = _ |- _ =>
      apply HEAP8_set_inv in Hm as (? & ? & ? & [? | ?]); simplify_eq
  | Hm : copy_out _ _ _ = _ |- _ =>
      apply copy_out_inv in Hm as (? & [(? & ? & ?) | ?]); simplify_eq
  | Hm : of_result _ _ = _ |- _ =>
      apply of_result_inv in Hm as (? & [(? & ? & ?) | (? & ? & ?)]); simplify_eq
  | R : ret _ _ = _ |- _ => inversion R; subst; clear R
  | R : throw _ _ = _ |- _ => inversion R; subst; clear R
  end.

(** The log a chain of steps added. *)
Ltac chain_added :=
  unfold added in *;
  repeat match goal with
  | E : calls _ = _ |- _ => rewrite E; clear E
  end;
  rewrite <- ?app_assoc;
  first [ f_equal; cbn; reflexivity | symmetry; apply app_nil_r ].

Lemma atob_of_returned url bytes :
  atob_of url = inr bytes ->
  bytes = payload url /\ matches_image_head (mime url) = true.
Proof. unfold atob_of. case_match; [|done]. by intros [= <-]. Qed.

Lemma atob_of_threw url e :
  atob_of url = inl e ->
  e = InvalidCharacterError /\ matches_image_head (mime url) = false.
Proof. unfold atob_of. case_match; [done|]. by intros [= <-]. Qed.

Section BridgeFacts.
Context {S : Type} `{Libwebp S} {File Image : Type} `{Browser File Image}.

(** Everything one encode call does. *)
Lemma convertImageDataToWebpURL_run imageData quality (w : World S) r w1 :
  convertImageDataToWebpURL imageData quality w = (r, w1) ->
  console w1 = console w /\ emitted w1 = emitted w
  /\ exists cs, added w w1 cs
      /\ overlay_texts cs = []
      /\ match r with
         | Ok url =>
             exists p rp size,
               cs = [call_create_buffer (width imageData) (height imageData) p;
                     call_encode p (width imageData) (height imageData) quality;
                     call_get_encode_result_pointer rp;
                     call_get_encode_result_size size;
                     call_free_result rp;
                     call_destroy_buffer p]
               /\ mime url = "image/webp" /\ byteLength url = size
         | Throw e =>
             (encode_qualities cs = [] \/ encode_qualities cs = [quality])
             /\ (e = RangeError \/ encode_traps imageData quality e)
             /\ (length (omap encode_size cs) <= 1)%nat
         | Unfinished => False
         end.
Proof.
  unfold encode_traps. intros R. unfold convertImageDataToWebpURL in R.
  run_steps.
  all: split; [congruence|]; split; [congruence|].
  all: eexists; split; [chain_added|]; split; [reflexivity|]; cbn.
  - eexists _, _, _. split_and!; [reflexivity..|]. unfold byteLength; cbn. lia.
  - split_and!; [auto | eauto 10 | lia].
  - split_and!; [auto | eauto 10 | lia].
  - split_and!; [auto | eauto 10 | lia].
  - split_and!; [auto | eauto 10 | lia].
  - split_and!; [auto | eauto 10 | lia].
  - split_and!; [auto | eauto 10 | lia].
  - split_and!; [auto | eauto 10 | lia].
  - split_and!; [auto | eauto 10 | lia].
Qed.

(** Where one encode call ends, on the module: when it returns, every
    step returned; when it throws, either [destroy_buffer] had no part in
    it, or every step before it returned and it trapped. *)
Lemma convertImageDataToWebpURL_path imageData quality (w : World S) r w1 :
  convertImageDataToWebpURL imageData quality w = (r, w1) ->
  match r with
  | Ok url =>
      exists p rp size m,
        encode_steps imageData quality (module w) p rp size (payload url) m
        /\ destroy_buffer p m = (inr tt, module w1)
        /\ added w w1
             (encode_block (width imageData) (height imageData) quality p rp size)
  | Throw e =>
      ((forall d,
           @convertImageDataToWebpURL S (with_destroy_buffer d) imageData quality w
           = (Throw e, w1))
       /\ exists cs,
           added w w1 cs
           /\ omap destroyed cs = []
           /\ ((allocations cs = []
                /\ create_buffer (width imageData) (height imageData) (module w)
                   = (inl e, module w1))
               \/ exists p, allocations cs = [p]))
      \/ (exists p rp size result m,
             encode_steps imageData quality (module w) p rp size result m
             /\ destroy_buffer p m = (inl e, module w1)
             /\ added w w1
                  [call_create_buffer (width imageData) (height imageData) p;
                   call_encode p (width imageData) (height imageData) quality;
                   call_get_encode_result_pointer rp;
                   call_get_encode_result_size size;
                   call_free_result rp])
  | Unfinished => False
  end.
Proof.
  unfold convertImageDataToWebpURL, bind, api, HEAP8_set, copy_out, ret.
  cbn. intros R.
  repeat case_match; simplify_eq; cbn in *.
  all: repeat match goal with u : unit |- _ => destruct u end.
  all: try (left; split; [intros d; reflexivity|];
            eexists; split;
            [unfold added; cbn;
             first [symmetry; apply app_nil_r
                   | rewrite <- ?app_assoc; f_equal; cbn; reflexivity]|];
            split; [reflexivity|];
            first [left; split; [reflexivity | first [reflexivity | eassumption]]
                  | right; eexists; reflexivity]).
  all: [> | right; eexists _, _, _, _, _ ]; [> eexists _, _, _, _ | ].
  all: split_and!; [| eassumption | unfold added; cbn; by rewrite <- !app_assoc].
  all: eexists _, _, _, _; split_and!; try eassumption; try reflexivity.
  all: unfold in_heap; cbn; lia.
Qed.

(** What a decode call that returned has done. *)
Lemma convertWebpURLToPngURL_returns url (w : World S) png w1 :
  convertWebpURLToPngURL url w = (Ok png, w1) ->
  exists p ret rp width height,
    added w w1
      [call_create_buffer_with_size (Z.of_nat (length (payload url))) p;
       call_decode p (Z.of_nat (length (payload url))) ret;
       call_get_decode_result_pointer rp;
       call_get_decode_result_width width;
       call_get_decode_result_height height;
       call_free_result rp;
       call_destroy_buffer p]
    /\ mime png = "image/png".
Proof.
  intros R. unfold convertWebpURLToPngURL in R. cbv zeta in R.
  run_steps.
  match goal with E : atob_of _ = inr _ |- _ => apply atob_of_returned in E as [-> _] end.
  eexists _, _, _, _, _. split; [chain_added | reflexivity].
Qed.

(** C2 (as amended): in every encode call and every decode call that
    returns, one buffer was allocated, and it was released once, after the
    one release of the result region the module reported: the releases in
    the log are [free_result] on the result pointer, then [destroy_buffer]
    on the allocated buffer, and nothing else. *)
Theorem buffers_released_when_the_call_returns
    imageData quality url (w : World S) r w1 :
  convertImageDataToWebpURL imageData quality w = (Ok r, w1)
  \/ convertWebpURLToPngURL url w = (Ok r, w1) ->
  exists cs p rp,
    added w w1 cs
    /\ allocations cs = [p]
    /\ omap result_pointer cs = [rp]
    /\ releases cs = [call_free_result rp; call_destroy_buffer p].
Proof.
  intros [R | R].
  - apply convertImageDataToWebpURL_run in R
      as (_ & _ & cs & Hcs & _ & p & rp & size & -> & _).
    eexists _, p, rp. by split_and!.
  - apply convertWebpURLToPngURL_returns in R
      as (p & ret & rp & width & height & Hcs & _).
    eexists _, p, rp. by split_and!.
Qed.

(** C8 (as amended): the encode operation has no check of its own.  It
    throws only what an export trapped with or the [RangeError] of a heap
    access.  Whenever it returns, every export returned and both heap
    accesses were in range ([encode_steps]), and the payload of the WebP
    data URL is the copy of the region the module recorded: the [size]
    bytes at the result pointer [rp], as the memory was when
    [get_encode_result_size] had returned, whatever that size is. *)
Theorem encode_returns_whatever_the_module_recorded imageData quality (w : World S) :
  match convertImageDataToWebpURL imageData quality w with
  | (Ok url, w1) =>
      mime url = "image/webp"
      /\ (exists cs, added w w1 cs /\ omap encode_size cs = [byteLength url])
      /\ exists p rp size m,
          added w w1
            (encode_block (width imageData) (height imageData) quality p rp size)
          /\ encode_steps imageData quality (module w) p rp size (payload url) m
          /\ byteLength url = size
          /\ destroy_buffer p m = (inr tt, module w1)
  | (Throw e, _) => e = RangeError \/ encode_traps imageData quality e
  | (Unfinished, _) => False
  end.
Proof.
  destruct (convertImageDataToWebpURL imageData quality w) as [r w1] eqn:R.
  pose proof R as Hpath. apply convertImageDataToWebpURL_path in Hpath.
  apply convertImageDataToWebpURL_run in R as (_ & _ & cs & Hcs & _ & R).
  destruct r as [url | e |]; [| tauto | done].
  destruct R as (p & rp & size & -> & Hmime & Hsize).
  destruct Hpath as (p' & rp' & size' & m & Hsteps & Hdestroy & Hcs').
  pose proof (added_inj _ _ _ _ Hcs Hcs') as Hsame.
  unfold encode_block in Hsame. simplify_eq.
  split; [done|]. split.
  - eexists; split; [done|]. done.
  - by eexists _, _, _, m.
Qed.

End BridgeFacts.

(** C2: a module whose result region lies outside its memory.  The copy-out
    throws; the input buffer at address 0 was allocated and nothing was
    released, in the encode call and in the decode call alike. *)
Lemma buffers_leak_when_the_copy_out_throws :
  let encoded :=
    @convertImageDataToWebpURL Z (scripted (fun _ => 10) 100) one_pixel 100 (fresh 16) in
  let decoded :=
    @convertWebpURLToPngURL Z (scripted (fun _ => 10) 100) nat nat numbered
      (mkDataURL "image/webp" [Byte.x00]) (fresh 16) in
  (fst encoded = Throw RangeError
   /\ allocations (calls (snd encoded)) = [0]
   /\ releases (calls (snd encoded)) = [])
  /\ (fst decoded = Throw RangeError
      /\ allocations (calls (snd decoded)) = [0]
      /\ releases (calls (snd decoded)) = []).
Proof. vm_compute. done. Qed.

Lemma buffers_released_witness :
  exists cs p rp,
    added (fresh 16)
      (snd (@convertImageDataToWebpURL Z (scripted (fun _ => 10) 0) one_pixel 100 (fresh 16)))
      cs
    /\ allocations cs = [p]
    /\ omap result_pointer cs = [rp]
    /\ releases cs = [call_free_result rp; call_destroy_buffer p].
Proof.
  eapply (@buffers_released_when_the_call_returns Z (scripted (fun _ => 10) 0)
            nat nat numbered one_pixel 100 (mkDataURL "" [])).
  left. vm_compute. reflexivity.
Defined.

(** C8: a module that records a result of length zero.  The encode call
    returns, and the image it returns is built from that result. *)
Lemma encode_accepts_a_zero_length_result :
  let encoded :=
    @convertImageDataToWebpURL Z (scripted (fun _ => 0) 0) one_pixel 100 (fresh 16) in
  fst encoded = Ok (mkDataURL "image/webp" [])
  /\ omap encode_size (calls (snd encoded)) = [0].
Proof. vm_compute. done. Qed.

(** ** The quality-constrained encoder *)

(** The test [quality <= 0.07] after the decrement of round [k] holds
    first in round 11. *)
Lemma floor_reached k :
  (k < 12)%nat ->
  (quality_in_round (Datatypes.S k) <=? 0.07)%float = bool_decide (k = 11%nat).
Proof.
  intros Hk.
  do 12 (destruct k as [|k]; [vm_compute; reflexivity|]).
  lia.
Qed.

Lemma passed_qualities :
  map passed_in_round (seq 0 12) = [100; 92; 85; 77; 69; 61; 53; 45; 37; 29; 21; 13].
Proof. vm_compute. reflexivity. Qed.

Section LoopFacts.
Context {S : Type} `{Libwebp S} {File Image : Type} `{Browser File Image}.

Lemma encode_qualities_round p width height quality rp size cs :
  encode_qualities
    ([call_create_buffer width height p;
      call_encode p width height quality;
      call_get_encode_result_pointer rp;
      call_get_encode_result_size size;
      call_free_result rp;
      call_destroy_buffer p] ++ [] ++ cs)
  = quality :: encode_qualities cs.
Proof. reflexivity. Qed.

Lemma encode_sizes_round p width height quality rp size cs :
  omap encode_size
    ([call_create_buffer width height p;
      call_encode p width height quality;
      call_get_encode_result_pointer rp;
      call_get_encode_result_size size;
      call_free_result rp;
      call_destroy_buffer p] ++ [] ++ cs)
  = size :: omap encode_size cs.
Proof. reflexivity. Qed.

Lemma console_error_inv line (w : World S) r w1 :
  console_error line w = (r, w1) ->
  r = Ok tt /\ emitted w1 = emitted w /\ added w w1 []
  /\ console w1 = console w ++ [line].
Proof.
  unfold console_error, added. intros R; inversion R; subst; cbn.
  by rewrite app_nil_r.
Qed.

(** Everything a run of the loop does, from round [k] on. *)
Lemma encodeLoop_run fuel k url imageData (w : World S) r w1 :
  (k < 12)%nat -> (12 <= fuel + k)%nat ->
  encodeLoop fuel url imageData (quality_in_round k) w = (r, w1) ->
  emitted w1 = emitted w
  /\ exists sizes cs,
      (k + length sizes < 12)%nat
      /\ Forall (fun size => 100000 < size) sizes
      /\ added w w1 cs
      /\ overlay_texts cs = []
      /\ console w1 = console w ++ retry_lines k sizes
      /\ match r with
         | Ok webpUrl =>
             byteLength webpUrl <= 100000
             /\ mime webpUrl = "image/webp"
             /\ encode_qualities cs
                = map passed_in_round (seq k (Datatypes.S (length sizes)))
             /\ omap encode_size cs = sizes ++ [byteLength webpUrl]
         | Throw e =>
             (exists size,
                 100000 < size
                 /\ (k + length sizes = 11)%nat
                 /\ e = Error ("Error converting files, " +:+ errorMsg size)
                 /\ last_encoded imageData size w1
                 /\ encode_qualities cs
                    = map passed_in_round (seq k (Datatypes.S (length sizes)))
                 /\ omap encode_size cs = sizes ++ [size])
             \/ (encode_threw imageData (passed_in_round (k + length sizes)) e w1
                 /\ (encode_qualities cs = map passed_in_round (seq k (length sizes))
                     \/ encode_qualities cs
                        = map passed_in_round (seq k (Datatypes.S (length sizes))))
                 /\ exists unfinished,
                     omap encode_size cs = sizes ++ unfinished
                     /\ (length unfinished <= 1)%nat)
         | Unfinished => False
         end.
Proof.
  revert k w r w1.
  induction fuel as [|fuel IH]; intros k w r w1 Hk Hfuel R; [lia|].
  cbn [encodeLoop] in R. unfold useChrome in R.
  apply bind_inv in R as [(webpUrl & w2 & Hm & R) | [(e & Hm & ->) | (Hm & ->)]].
  - pose proof Hm as Hrun.
    apply convertImageDataToWebpURL_run in Hrun
      as (Hcon & Hem & cs0 & Hcs0 & _ & p & rp & size & -> & Hmime & Hsize).
    destruct (byteLength webpUrl <=? 100000) eqn:Hfit.
    + inversion R; subst r w2; clear R.
      split; [done|]. eexists [], _. cbn.
      rewrite app_nil_r. split_and!; try done; try lia.
      by rewrite Hsize.
    + change (quality_in_round k - 0.08)%float
        with (quality_in_round (Datatypes.S k)) in R.
      rewrite floor_reached in R by done.
      case_bool_decide as Hlast.
      * inversion R; subst r w2; clear R.
        split; [done|]. eexists [], _. cbn.
        rewrite app_nil_r. split_and!; try done; try lia.
        left. exists (byteLength webpUrl). split_and!; try done; try lia.
        -- eexists _, w, webpUrl. done.
        -- by rewrite Hsize.
      * apply bind_inv in R as [(? & w3 & Hc & R) | [(? & Hc & ?) | (Hc & ?)]];
          apply console_error_inv in Hc as (? & Hem3 & Hcs3 & Hcon3); try done.
        apply IH in R as (Hem' & sizes & cs & Hlen & Hbig & Hcs & Hov & Hcon' & R);
          [|lia..].
        split; [congruence|].
        eexists (byteLength webpUrl :: sizes), _. cbn [length retry_lines].
        split_and!.
        -- lia.
        -- constructor; [lia | done].
        -- eapply added_app; [exact Hcs0|].
           eapply added_app; [exact Hcs3|]. exact Hcs.
        -- unfold overlay_texts in *. by rewrite !omap_app, Hov.
        -- rewrite Hcon', Hcon3, Hcon. by rewrite <- app_assoc.
        -- replace (k + Datatypes.S (length sizes))%nat
             with (Datatypes.S k + length sizes)%nat by lia.
           rewrite encode_qualities_round, encode_sizes_round, <- Hsize.
           change (Math_ceil (quality_in_round k * 100)) with (passed_in_round k).
           destruct r as [u | e |]; [| | done].
           ++ destruct R as (? & ? & -> & ->). done.
           ++ destruct R as [(size0 & ? & ? & ? & ? & -> & ->)
                            | (? & Hq & unfinished & -> & ?)].
              ** left. by exists size0.
              ** right. split; [done|].
                 split; [destruct Hq as [-> | ->]; [by left | by right]|].
                 by exists unfinished.
  - apply convertImageDataToWebpURL_run in Hm as Hrun.
    destruct Hrun as (Hcon & Hem & cs0 & Hcs0 & Hov & Hq & _ & Hone).
    split; [done|]. exists [], cs0. cbn [length retry_lines seq map].
    rewrite app_nil_r, Nat.add_0_r. split_and!; try done; try lia.
    right. split; [by exists w|].
    split; [destruct Hq as [-> | ->]; [by left | by right]|].
    by exists (omap encode_size cs0).
  - by apply convertImageDataToWebpURL_run in Hm as (_ & _ & _ & _ & _ & ?).
Qed.

(** From round [k] on, any fuel that reaches round 11 gives the same run. *)
Lemma encodeLoop_fuel fuel fuel' k url imageData (w : World S) :
  (k < 12)%nat -> (12 <= fuel + k)%nat -> (12 <= fuel' + k)%nat ->
  encodeLoop fuel url imageData (quality_in_round k) w
  = encodeLoop fuel' url imageData (quality_in_round k) w.
Proof.
  revert fuel' k w.
  induction fuel as [|fuel IH]; intros [|fuel'] k w Hk Hf Hf'; try lia.
  cbn [encodeLoop]. unfold useChrome, bind.
  destruct (convertImageDataToWebpURL _ _ w) as [[webpUrl | e |] w2]; try done.
  destruct (byteLength webpUrl <=? 100000); [done|].
  change (quality_in_round k - 0.08)%float with (quality_in_round (Datatypes.S k)).
  rewrite floor_reached by done.
  case_bool_decide; [done|].
  destruct (console_error _ w2) as [[[] | e |] w3]; try done.
  apply IH; lia.
Qed.

(** X17: the loop needs no more than its twelve rounds: with more fuel the
    run is the same, and it never ends for lack of fuel. *)
Lemma encodeLoop_finishes fuel url imageData (w : World S) :
  (rounds <= fuel)%nat ->
  encodeLoop fuel url imageData 1.0%float w = encodeLoop rounds url imageData 1.0%float w
  /\ fst (encodeLoop rounds url imageData 1.0%float w) <> Unfinished.
Proof.
  unfold rounds. intros Hfuel. split.
  - apply (encodeLoop_fuel fuel 12 0); lia.
  - destruct (encodeLoop 12 url imageData 1.0%float w) as [r w1] eqn:R.
    apply (encodeLoop_run 12 0) in R as (_ & sizes & cs & _ & _ & _ & _ & _ & R);
      [|lia..].
    cbn. by destruct r.
Qed.

(** C1 (as amended): [resizeAndConvert] with [toWebp = true] returns an
    image of at most 100,000 bytes, or throws.  What it throws is the
    loop's own error, whose message holds the size of the last encoded
    image in units of 1024 bytes, rounded up (and not its byte length), or
    the error of Jimp or of the encode call, passed on as it is.  It never
    returns a larger image, and it always ends. *)
Theorem resizeAndConvert_size_invariant (input : File) px (w : World S) :
  match resizeAndConvert input px true w with
  | (Ok webpUrl, _) => byteLength webpUrl <= 100000
  | (Throw e, w1) =>
      (exists imageData size,
          100000 < size
          /\ e = Error ("Error converting files, WebP size "
                        +:+ pretty (Math_ceil_div size 1024) +:+ "kb exceeded 100kb")
          /\ last_encoded imageData size w1)
      \/ Jimp_read input = inl e
      \/ (exists imageData quality, encode_threw imageData quality e w1)
  | (Unfinished, _) => False
  end.
Proof.
  destruct (resizeAndConvert input px true w) as [r w1] eqn:R.
  unfold resizeAndConvert in R. cbv zeta in R.
  apply bind_inv in R as [(image & w2 & Hm & R) | [(e & Hm & ->) | (Hm & ->)]];
    apply of_result_inv in Hm as (-> & [(? & Hread & ?) | (? & Hread & ?)]);
    simplify_eq.
  - apply (encodeLoop_run 12 0) in R as (_ & sizes & cs & _ & _ & _ & _ & _ & R);
      [|lia..].
    destruct r as [webpUrl | e |]; [tauto | | done].
    destruct R as [(size & ? & ? & -> & ? & _) | (? & _)].
    + left. by eexists _, size.
    + right; right. by eexists _, _.
  - by right; left.
Qed.

(** C3 (as amended): in every run of the loop the qualities are
    [quality_in_round 0, 1, 2, ...]: 1.0 and then, round after round, the
    binary64 difference of the last one and 0.08.  Each round passes the
    codec bridge [Math.ceil(quality * 100)], which makes the integers
    100, 92, 85, 77, 69, 61, 53, 45, 37, 29, 21, 13.  The run stops at the
    first image that fits: the sizes the module recorded, one for each
    encode call in the log and each the byte length of the image of that
    round, are [sizes], all above 100,000, and then the byte length of the
    image returned, at most 100,000.  Every image of [sizes] left a
    [console.error] line with the next quality.  The loop throws when the
    image of the twelfth round is too large as well.  When an encode call
    itself throws, it is the call of the round after [sizes], and the log
    holds the sizes of the rounds before it and at most the one it
    recorded. *)
Theorem attempted_qualities url imageData (w : World S) :
  match encodeLoop rounds url imageData 1.0%float w with
  | (r, w1) =>
      exists sizes cs,
        (length sizes < 12)%nat
        /\ Forall (fun size => 100000 < size) sizes
        /\ added w w1 cs
        /\ console w1 = console w ++ retry_lines 0 sizes
        /\ match r with
           | Ok webpUrl =>
               byteLength webpUrl <= 100000
               /\ omap encode_size cs = sizes ++ [byteLength webpUrl]
               /\ encode_qualities cs
                  = take (Datatypes.S (length sizes))
                      [100; 92; 85; 77; 69; 61; 53; 45; 37; 29; 21; 13]
           | Throw e =>
               (length sizes = 11%nat
                /\ encode_qualities cs
                   = [100; 92; 85; 77; 69; 61; 53; 45; 37; 29; 21; 13]
                /\ exists size,
                    100000 < size
                    /\ omap encode_size cs = sizes ++ [size]
                    /\ e = Error ("Error converting files, " +:+ errorMsg size))
               \/ (exists quality,
                      encode_threw imageData quality e w1
                      /\ [100; 92; 85; 77; 69; 61; 53; 45; 37; 29; 21; 13]
                           !! length sizes = Some quality
                      /\ (exists n,
                             (length sizes <= n <= Datatypes.S (length sizes))%nat
                             /\ encode_qualities cs
                                = take n [100; 92; 85; 77; 69; 61; 53; 45; 37; 29; 21; 13])
                      /\ exists unfinished,
                          omap encode_size cs = sizes ++ unfinished
                          /\ (length unfinished <= 1)%nat)
           | Unfinished => False
           end
  end.
Proof.
  destruct (encodeLoop rounds url imageData 1.0%float w) as [r w1] eqn:R.
  apply (encodeLoop_run 12 0) in R
    as (_ & sizes & cs & Hlen & Hbig & Hcs & _ & Hcon & R); [|lia..].
  cbn [Nat.add] in *.
  assert (Hseq : forall n, (n <= 12)%nat ->
            map passed_in_round (seq 0 n)
            = take n [100; 92; 85; 77; 69; 61; 53; 45; 37; 29; 21; 13]).
  { intros n Hn. rewrite <- passed_qualities, firstn_map, take_seq.
    by rewrite Nat.min_l. }
  exists sizes, cs. split_and!; try done.
  destruct r as [webpUrl | e |]; [| | done].
  - destruct R as (? & _ & -> & ->). split_and!; [done | done |]. apply Hseq. lia.
  - destruct R as [(size & ? & Hlast & -> & _ & -> & ->) | (? & Hq & Hsizes)].
    + left. split_and!; [done | | by exists size].
      rewrite Hseq by lia. by rewrite Hlast.
    + right. eexists; split; [done|]. split_and!; [| | done].
      * rewrite <- passed_qualities.
        change (map passed_in_round (seq 0 12)) with (passed_in_round <$> seq 0 12).
        rewrite list_lookup_fmap, lookup_seq_lt by lia. done.
      * destruct Hq as [-> | ->]; eexists; (split; [|apply Hseq; lia]); lia.
Qed.

End LoopFacts.

(** The qualities of the thirteen rounds a run can reach, the last of which
    is below the floor. *)
Lemma qualities_in_rounds :
  map quality_in_round (seq 0 13)
  = [1.0; 0.92; 0.8400000000000001; 0.7600000000000001; 0.6800000000000002;
     0.6000000000000002; 0.5200000000000002; 0.4400000000000002;
     0.3600000000000002; 0.2800000000000002; 0.20000000000000018;
     0.12000000000000018; 0.040000000000000174]%float.
Proof. vm_compute. reflexivity. Qed.

(** C1: two modules whose images are always too large, of 100,001 bytes and
    of 100,002 bytes.  Both runs throw the same error: its message says
    98kb, and does not tell which byte length was reached last. *)
Lemma error_does_not_carry_the_byte_length :
  let run size :=
    @resizeAndConvert Z (scripted (fun _ => size) 0) nat nat numbered
      1%nat 512 true (fresh 100002) in
  fst (run 100001)
  = Throw (Error "Error converting files, WebP size 98kb exceeded 100kb")
  /\ fst (run 100002) = fst (run 100001)
  /\ last (omap encode_size (calls (snd (run 100001)))) = Some 100001
  /\ last (omap encode_size (calls (snd (run 100002)))) = Some 100002.
Proof. vm_compute. done. Qed.

(** C3: a module whose images are always too large.  The third quality is
    above 0.84, and the codec bridge is passed 85, not the 84 that 0.84
    would give; likewise in the rounds that follow. *)
Lemma third_quality_is_not_0_84 :
  let run :=
    @encodeLoop Z (scripted (fun _ => 100001) 0) nat nat numbered
      rounds (mkDataURL "image/png" []) one_pixel 1.0%float (fresh 100002) in
  encode_qualities (calls (snd run))
  = [100; 92; 85; 77; 69; 61; 53; 45; 37; 29; 21; 13]
  /\ map quality_of (console (snd run))
     = [0.92; 0.8400000000000001; 0.7600000000000001; 0.6800000000000002;
        0.6000000000000002; 0.5200000000000002; 0.4400000000000002;
        0.3600000000000002; 0.2800000000000002; 0.20000000000000018;
        0.12000000000000018]%float
  /\ (0.84 <? 0.8400000000000001)%float = true
  /\ Math_ceil (0.84 * 100)%float = 84.
Proof. vm_compute. done. Qed.

(** ** Packs *)

#[local] Open Scope nat_scope.
#[local] Ltac Zify.zify_post_hook ::= Z.to_euclidean_division_equations.


Lemma numOfPacks_for_bounds count :
  (count = 0 -> numOfPacks_for count = 0)
  /\ (0 < count ->
      30 * (numOfPacks_for count - 1) < count <= 30 * numOfPacks_for count
      /\ 1 <= numOfPacks_for count).
Proof. unfold numOfPacks_for, Math_ceil_div. lia. Qed.

Lemma concat_all_nil {A} (packs : list (list A)) :
  (forall j pack, packs !! j = Some pack -> pack = []) -> concat packs = [].
Proof.
  induction packs as [|pack packs IH]; intros Hnil; [done|]. cbn.
  rewrite (Hnil 0 pack eq_refl). cbn. apply IH.
  intros j p Hj. by apply (Hnil (S j)).
Qed.

Lemma concat_push {A} k (x : A) packs :
  k < length packs ->
  (forall j pack, k < j -> packs !! j = Some pack -> pack = []) ->
  concat (alter (fun pack => pack ++ [x]) k packs) = concat packs ++ [x].
Proof.
  revert k. induction packs as [|pack packs IH]; intros k Hk Hnil; cbn in *; [lia|].
  destruct k as [|k]; cbn.
  - rewrite (concat_all_nil packs).
    + by rewrite !app_nil_r.
    + intros j p Hj. apply (Hnil (S j)); [lia | done].
  - rewrite IH; [by rewrite app_assoc | lia |].
    intros j p Hj. apply (Hnil (S j)). lia.
Qed.

Lemma sizes_push {A} count k (x : A) (packs : list (list A)) :
  k = count / 30 ->
  k < length packs ->
  map length packs = map (chunk_size count) (seq 0 (length packs)) ->
  map length (alter (fun pack => pack ++ [x]) k packs)
  = map (chunk_size (S count)) (seq 0 (length packs)).
Proof.
  intros Hk Hlen Hsizes.
  pose proof (Nat.div_mod_eq count 30) as Hdiv.
  pose proof (Nat.mod_upper_bound count 30) as Hmod.
  apply list_eq. intros j.
  rewrite !list_lookup_fmap.
  destruct (decide (j < length packs)) as [Hj|Hj].
  2:{ rewrite !lookup_ge_None_2; [done | rewrite length_seq; lia | rewrite length_alter; lia]. }
  rewrite lookup_seq_lt by done. cbn.
  assert (Hold : length <$> packs !! j = Some (chunk_size count j)).
  { rewrite <- list_lookup_fmap. change (length <$> packs) with (map length packs).
    rewrite Hsizes, list_lookup_fmap, lookup_seq_lt by done. done. }
  destruct (packs !! j) as [pack|] eqn:Hpack; [|done]. cbn in Hold.
  destruct (decide (k = j)) as [->|Hne].
  - rewrite list_lookup_alter_eq, Hpack. cbn. f_equal.
    rewrite length_app. cbn. injection Hold as ->. unfold chunk_size. lia.
  - rewrite list_lookup_alter_ne, Hpack by done. cbn. f_equal.
    injection Hold as ->. unfold chunk_size. lia.
Qed.

(** What the pushes make of packs that hold the first [i] stickers in
    chunks of 30. *)
Lemma distribute_chunks {A} (stickers : list A) i (packs : list (list A)) :
  i + length stickers <= 30 * length packs ->
  map length packs = map (chunk_size i) (seq 0 (length packs)) ->
  exists chunks,
    distribute stickers i packs = inr chunks
    /\ length chunks = length packs
    /\ concat chunks = concat packs ++ stickers
    /\ map length chunks
       = map (chunk_size (i + length stickers)) (seq 0 (length packs)).
Proof.
  revert i packs.
  induction stickers as [|sticker later IH]; intros i packs Hroom Hsizes;
    cbn [distribute length] in *.
  - exists packs. rewrite app_nil_r, Nat.add_0_r. done.
  - unfold push_to, Math_floor_div.
    pose proof (Nat.div_mod_eq i 30) as Hdiv.
    pose proof (Nat.mod_upper_bound i 30) as Hmod.
    assert (Hk : i / 30 < length packs) by lia.
    destruct (lookup_lt_is_Some_2 packs (i / 30) Hk) as [pack Hpack].
    rewrite Hpack.
    destruct (IH (S i) (alter (fun pack => pack ++ [sticker]) (i / 30) packs))
      as (chunks & Hd & Hlen & Hcat & Hsz).
    + rewrite length_alter. lia.
    + rewrite length_alter. by apply sizes_push.
    + exists chunks. rewrite length_alter in *. split_and!; try done.
      * rewrite Hcat, concat_push; [by rewrite <- app_assoc | done |].
        intros j p Hj Hp.
        assert (Hjl : j < length packs) by (by eapply lookup_lt_Some).
        assert (Hz : length <$> (packs !! j) = Some (chunk_size i j)).
        { rewrite <- list_lookup_fmap. change (length <$> packs) with (map length packs).
          rewrite Hsizes, list_lookup_fmap, lookup_seq_lt by done. done. }
        rewrite Hp in Hz. injection Hz as Hz.
        apply length_zero_iff_nil. rewrite Hz. unfold chunk_size. lia.
      * rewrite Hsz. f_equal. 
        replace (S i + length later) with (i + S (length later)) by lia. done.
Qed.

Lemma sizes_of_empty_packs {A} n :
  map length (replicate n (@nil A)) = map (chunk_size 0) (seq 0 n).
Proof.
  apply list_eq; intros j. rewrite !list_lookup_fmap.
  destruct (decide (j < n)) as [Hj|Hj].
  - rewrite lookup_replicate_2, lookup_seq_lt by done. done.
  - rewrite !lookup_ge_None_2; [done | rewrite length_seq; lia | rewrite length_replicate; lia].
Qed.

Lemma last_two {A} (l : list A) :
  2 <= length l -> exists front a b, l = front ++ [a; b].
Proof.
  intros Hl. exists (take (length l - 2) l).
  pose proof (take_drop (length l - 2) l) as Hsplit.
  assert (Hd : length (drop (length l - 2) l) = 2) by (rewrite length_drop; lia).
  destruct (drop (length l - 2) l) as [|a [|b [|c rest]]]; cbn in Hd; try lia.
  by exists a, b.
Qed.

Lemma splice_from_end {A} k (array : list A) :
  splice (- Z.of_nat k) array
  = if decide (k = 0) then ([], array)
    else (take (length array - k) array, drop (length array - k) array).
Proof.
  unfold splice. case_decide as Hk.
  - subst. cbn. by rewrite Z.min_l by lia.
  - destruct (Z.ltb_spec (- Z.of_nat k) 0) as [_|]; [|lia].
    replace (Z.to_nat (Z.max (Z.of_nat (length array) + - Z.of_nat k) 0))
      with (length array - k) by lia.
    done.
Qed.

(** What [balance] does to [numOfPacks] packs. *)
Lemma balance_cases {A} n (chunks : list (list A)) :
  length chunks = n ->
  exists packs,
    balance n chunks = inr packs
    /\ ((n <= 1 /\ packs = chunks)
        \/ exists front donor final,
            chunks = front ++ [donor; final]
            /\ ((3 <= length final /\ packs = chunks)
                \/ (length final < 3
                    /\ packs
                       = front
                         ++ [take (length donor - (3 - length final)) donor;
                             drop (length donor - (3 - length final)) donor ++ final]))).
Proof.
  intros Hn. unfold balance.
  destruct (Nat.ltb_spec 1 n) as [Hmany|Hone]; [|exists chunks; split; [done|left; done]].
  destruct (last_two chunks) as (front & donor & final & ->); [lia|].
  rewrite length_app in Hn. cbn in Hn.
  replace (n - 1) with (length front + 1) by lia.
  replace (n - 2) with (length front + 0) by lia.
  rewrite !lookup_app_r by lia.
  replace (length front + 1 - length front) with 1 by lia.
  replace (length front + 0 - length front) with 0 by lia.
  cbn [lookup list_lookup].
  destruct (Nat.ltb_spec (length final) 3) as [Hfew|Hfull].
  - replace (3 - Z.of_nat (length final))%Z with (Z.of_nat (3 - length final)) by lia.
    rewrite splice_from_end. case_decide; [lia|].
    eexists; split; [reflexivity|]. right. exists front, donor, final.
    split; [done|]. right. split; [done|].
    rewrite !insert_app_r_alt; rewrite ?length_insert; try lia.
    replace (length front + 1 - length front) with 1 by lia.
    replace (length front + 0 - length front) with 0 by lia.
    done.
  - eexists; split; [reflexivity|]. right. exists front, donor, final.
    split; [done|]. by left.
Qed.

(** The chunks the pushes make of [stickers], and what [balance] makes of
    them. *)
Lemma assembled {A} (stickers : list A) chunks packs :
  distribute stickers 0 (replicate (numOfPacks_for (length stickers)) []) = inr chunks ->
  balance (numOfPacks_for (length stickers)) chunks = inr packs ->
  length chunks = numOfPacks_for (length stickers)
  /\ concat chunks = stickers
  /\ map length chunks
     = map (chunk_size (length stickers)) (seq 0 (numOfPacks_for (length stickers)))
  /\ ((numOfPacks_for (length stickers) <= 1 /\ packs = chunks)
      \/ exists front donor final,
          chunks = front ++ [donor; final]
          /\ ((3 <= length final /\ packs = chunks)
              \/ (length final < 3
                  /\ packs
                     = front
                       ++ [take (length donor - (3 - length final)) donor;
                           drop (length donor - (3 - length final)) donor ++ final]))).
Proof.
  set (n := numOfPacks_for (length stickers)). intros Hdist Hbal.
  destruct (distribute_chunks stickers 0 (replicate n []))
    as (chunks' & Hd & Hlen & Hcat & Hsz).
  - rewrite length_replicate. cbn.
    destruct (numOfPacks_for_bounds (length stickers)) as [Hz Hpos]. fold n in Hz, Hpos.
    destruct (decide (length stickers = 0)); lia.
  - rewrite length_replicate. apply sizes_of_empty_packs.
  - rewrite Hd in Hdist. injection Hdist as ->.
    rewrite length_replicate in Hlen, Hsz. cbn in Hsz.
    rewrite (concat_all_nil (replicate n [])) in Hcat
      by (intros j p Hj; by apply lookup_replicate in Hj as [-> _]).
    destruct (balance_cases n chunks Hlen) as (packs' & Hb & Hcases).
    rewrite Hb in Hbal. injection Hbal as ->.
    done.
Qed.

(** The sizes of the chunks when there are at least two. *)
Lemma sizes_of_last_two {A} count (front : list (list A)) donor final :
  map length (front ++ [donor; final])
  = map (chunk_size count) (seq 0 (numOfPacks_for count)) ->
  numOfPacks_for count = length front + 2
  /\ Forall (fun pack => length pack = 30) front
  /\ length donor = 30
  /\ 1 <= length final <= 30
  /\ count = 30 * (length front + 1) + length final.
Proof.
  intros Hsz.
  assert (Hn : numOfPacks_for count = length front + 2).
  { apply (f_equal length) in Hsz.
    rewrite !length_map, length_app, length_seq in Hsz. cbn in Hsz. lia. }
  destruct (numOfPacks_for_bounds count) as [Hzero Hpos].
  rewrite Hn in Hsz, Hpos, Hzero.
  assert (Hcount : 0 < count) by lia.
  specialize (Hpos Hcount).
  rewrite seq_app, !map_app in Hsz. cbn in Hsz.
  apply app_inj_1 in Hsz as [Hfront Hlast];
    [|by rewrite !length_map, length_seq].
  injection Hlast as Hdonor Hfinal.
  unfold chunk_size in Hdonor, Hfinal.
  split_and!; try lia.
  apply Forall_lookup_2. intros j pack Hj.
  assert (Hjl : j < length front) by (by eapply lookup_lt_Some).
  assert (Hz : (map length front) !! j = Some (length pack)).
  { change (map length front) with (length <$> front).
    by rewrite list_lookup_fmap, Hj. }
  rewrite Hfront in Hz.
  change (map (chunk_size count) (seq 0 (length front)))
    with (chunk_size count <$> seq 0 (length front)) in Hz.
  rewrite list_lookup_fmap, lookup_seq_lt in Hz by done.
  injection Hz as Hz. unfold chunk_size in Hz. lia.
Qed.

Section PackFacts.
Context {S : Type} `{Libwebp S} {File Image : Type} `{Browser File Image}.

Lemma processImageFile_tray (file : File) (w : World S) r w1 :
  processImageFile file Tray w = (r, w1) ->
  w1 = w
  /\ ((exists image,
          Jimp_read file = inr image
          /\ r = Ok (mkDataURL "image/png" (getBase64_PNG (contain image 96 96))))
      \/ (exists e, Jimp_read file = inl e /\ r = Throw e)).
Proof.
  intros R. unfold processImageFile, resizeAndConvert in R. cbv zeta in R.
  run_steps; split; eauto.
Qed.

Lemma processImageFile_stickers (file : File) (w : World S) r w1 :
  processImageFile file Stickers w = (r, w1) ->
  emitted w1 = emitted w
  /\ exists cs,
      added w w1 cs /\ overlay_texts cs = []
      /\ match r with
         | Ok sticker => size_constrained sticker
         | Throw _ => True
         | Unfinished => False
         end.
Proof.
  intros R. unfold processImageFile, resizeAndConvert in R. cbv zeta in R.
  apply bind_inv in R as [(image & w2 & Hm & R) | [(e & Hm & ->) | (Hm & ->)]];
    apply of_result_inv in Hm as (-> & [(? & Hread & ?) | (? & Hread & ?)]);
    simplify_eq.
  - apply (encodeLoop_run 12 0) in R as (Hem & sizes & cs & _ & _ & Hcs & Hov & _ & R);
      [|lia..].
    split; [done|]. exists cs. split_and!; try done.
    destruct r; try done. split; tauto.
  - split; [done|]. exists []. split_and!; try done. apply added_nil.
Qed.

Lemma makeTrays_run n tray index (packs : list (list DataURL)) (w : World S) r w1 :
  makeTrays n tray index packs w = (r, w1) ->
  emitted w1 = emitted w
  /\ exists cs,
      added w w1 cs
      /\ (if (n =? 1)%nat
          then r = Ok (map (fun _ => tray) packs) /\ cs = []
          else r = Ok (map (fun i => mkDataURL "image/png"
                                       (drawNumber_PNG tray (pretty (i + 1)%nat)))
                           (seq index (length packs)))
               /\ overlay_texts cs
                  = map (fun i => pretty (i + 1)%nat) (seq index (length packs))).
Proof.
  revert index w r w1.
  destruct (n =? 1)%nat eqn:Hn;
    induction packs as [|pack packs IH]; intros index w r w1 R;
    cbn [makeTrays] in R; try rewrite Hn in R.
  - inversion R; subst. split; [done|]. exists []. split; [apply added_nil | done].
  - apply bind_inv in R as [(t & w2 & Hm & R) | [(e & Hm & ?) | (Hm & ?)]];
      inversion Hm; subst; clear Hm.
    apply bind_inv in R as [(ts & w3 & Hm & R) | [(e & Hm & ?) | (Hm & ?)]];
      apply IH in Hm as (Hem & cs & Hcs & Hm & ->); simplify_eq.
    inversion R; subst; clear R.
    split; [done|]. exists []. done.
  - inversion R; subst. split; [done|]. exists []. split; [apply added_nil | done].
  - unfold addNumberToTray in R at 1.
    apply bind_inv in R as [(t & w2 & Hm & R) | [(e & Hm & ?) | (Hm & ?)]];
      inversion Hm; subst; clear Hm.
    apply bind_inv in R as [(ts & w3 & Hm & R) | [(e & Hm & ?) | (Hm & ?)]];
      apply IH in Hm as (Hem & cs & Hcs & Hm & Hov); simplify_eq.
    inversion R; subst; clear R.
    split; [done|]. exists (call_addNumberToTray (pretty (index + 1)%nat) :: cs).
    split.
    + unfold added, log_call in *. cbn in Hcs. rewrite Hcs.
      by rewrite <- app_assoc.
    + unfold overlay_texts in *. cbn. by rewrite Hov.
Qed.

Lemma emit_inv ev (w : World S) r w1 :
  emit ev w = (r, w1) ->
  r = Ok tt /\ emitted w1 = emitted w ++ [ev] /\ added w w1 [].
Proof.
  unfold emit, added. intros R; inversion R; subst; cbn. by rewrite app_nil_r.
Qed.

Lemma try_catch_inv {A} (m : JS S A) h (w : World S) r w2 :
  try_catch m h w = (r, w2) ->
  (exists a, m w = (Ok a, w2) /\ r = Ok a)
  \/ (exists e w1, m w = (Throw e, w1) /\ h e w1 = (r, w2))
  \/ (m w = (Unfinished, w2) /\ r = Unfinished).
Proof.
  unfold try_catch. destruct (m w) as [[a | e |] w1]; intros R.
  - left. inversion R; subst. eauto.
  - right; left. eauto.
  - right; right. inversion R; subst. eauto.
Qed.

Lemma loadStickers_run (files : list File) i packs (w : World S) r w1 :
  loadStickers files i packs w = (r, w1) ->
  exists k cs,
    k <= length files
    /\ emitted w1 = emitted w ++ replicate k stickerLoad
    /\ added w w1 cs
    /\ overlay_texts cs = []
    /\ match r with
       | Ok chunks =>
           k = length files
           /\ exists stickers,
               Forall2 (processed (S:=S)) files stickers
               /\ Forall size_constrained stickers
               /\ distribute stickers i packs = inr chunks
       | Throw e =>
           failed_with (S:=S) (File:=File) e
           \/ exists stickers : list DataURL,
               length stickers <= length files
               /\ distribute stickers i packs = inl e
       | Unfinished => False
       end.
Proof.
  revert i packs w r w1.
  induction files as [|file files IH]; intros i packs w r w1 R; cbn [loadStickers] in R.
  - inversion R; subst. exists 0, []. cbn. rewrite app_nil_r.
    split_and!; try done; [apply added_nil|].
    exists []. by split_and!.
  - apply bind_inv in R as [(sticker & w2 & Hm & R) | [(e & Hm & ?) | (Hm & ?)]];
      pose proof Hm as Hp;
      apply processImageFile_stickers in Hm as (Hem & cs0 & Hcs0 & Hov0 & Hok);
      simplify_eq; try done.
    2:{ exists 0, cs0. cbn. rewrite app_nil_r. split_and!; try done; [lia|].
        left. by eexists _, _, _, _. }
    apply bind_inv in R as [([] & w3 & Hm & R) | [(e & Hm & ?) | (Hm & ?)]];
      apply emit_inv in Hm as (? & Hem3 & Hcs3); simplify_eq.
    apply bind_inv in R as [(packs' & w4 & Hm & R) | [(e & Hm & ?) | (Hm & ?)]];
      apply of_result_inv in Hm as (-> & [(? & Hpush & ?) | (? & Hpush & ?)]);
      simplify_eq.
    2:{ exists 1, (cs0 ++ []). cbn. split_and!; try done.
        - lia.
        - by rewrite Hem3, Hem.
        - by eapply added_app.
        - unfold overlay_texts in *. by rewrite omap_app, Hov0.
        - right. exists [sticker]. cbn [distribute length]. rewrite Hpush.
          split; [lia | done]. }
    apply IH in R as (k & cs & Hk & Hem' & Hcs & Hov & R).
    exists (Datatypes.S k), (cs0 ++ [] ++ cs). split_and!.
    + cbn. lia.
    + rewrite Hem', Hem3, Hem. cbn. by rewrite <- app_assoc.
    + eapply added_app; [done|]. by eapply added_app.
    + unfold overlay_texts in *. by rewrite !omap_app, Hov0, Hov.
    + destruct r as [chunks | e |]; try done.
      * destruct R as (-> & stickers & Hall & Hsz & Hdist).
        split; [done|]. exists (sticker :: stickers). split_and!.
        -- constructor; [|done]. by exists w, w2.
        -- by constructor.
        -- cbn [distribute]. by rewrite Hpush.
      * destruct R as [Hfailed | (stickers & Hshort & Hdist)]; [by left|].
        right. exists (sticker :: stickers). cbn [distribute length].
        rewrite Hpush. split; [lia | done].
Qed.

(** The pushes and [balance] never throw in a conversion. *)
Lemma distribute_never_throws {A} (stickers : list A) count e :
  length stickers <= count ->
  distribute stickers 0 (replicate (numOfPacks_for count) []) <> inl e.
Proof.
  intros Hshort Hthrows.
  destruct (distribute_chunks stickers 0 (replicate (numOfPacks_for count) []))
    as (chunks & Hd & _).
  - rewrite length_replicate.
    destruct (numOfPacks_for_bounds count) as [Hz Hpos].
    destruct (decide (count = 0)); lia.
  - rewrite length_replicate. apply sizes_of_empty_packs.
  - congruence.
Qed.

Lemma balance_never_throws {A} (stickers : list A) count chunks e :
  length stickers <= count ->
  distribute stickers 0 (replicate (numOfPacks_for count) []) = inr chunks ->
  balance (numOfPacks_for count) chunks <> inl e.
Proof.
  intros Hshort Hdist Hthrows.
  destruct (distribute_chunks stickers 0 (replicate (numOfPacks_for count) []))
    as (chunks' & Hd & Hlen & _).
  - rewrite length_replicate.
    destruct (numOfPacks_for_bounds count) as [Hz Hpos].
    destruct (decide (count = 0)); lia.
  - rewrite length_replicate. apply sizes_of_empty_packs.
  - rewrite Hd in Hdist. injection Hdist as ->. rewrite length_replicate in Hlen.
    destruct (balance_cases _ chunks Hlen) as (packs & Hb & _). congruence.
Qed.

(** Everything a conversion does. *)
Lemma convertImagesToPacks_run (trayFile : File) files (w : World S) r w1 :
  convertImagesToPacks trayFile files w = (r, w1) ->
  r = Ok tt
  /\ exists k ev cs,
      emitted w1 = emitted w ++ replicate k stickerLoad ++ [ev]
      /\ added w w1 cs
      /\ k <= length files
      /\ match ev with
         | load trays packs =>
             k = length files
             /\ exists tray stickers chunks,
                 processImageFile trayFile Tray w = (Ok tray, w)
                 /\ trays = trays_for (numOfPacks_for (length files)) tray
                 /\ overlay_texts cs = numbers_for (numOfPacks_for (length files))
                 /\ Forall2 (processed (S:=S)) files stickers
                 /\ Forall size_constrained stickers
                 /\ distribute stickers 0 (replicate (numOfPacks_for (length files)) [])
                    = inr chunks
                 /\ balance (numOfPacks_for (length files)) chunks = inr packs
         | error e => failed_with (S:=S) (File:=File) e
         | stickerLoad => False
         end.
Proof.
  intros R. unfold convertImagesToPacks in R. cbv zeta in R.
  set (n := numOfPacks_for (length files)) in *.
  apply try_catch_inv in R as [(a & R & ->) | [(e & w2 & R & Hh) | (R & ->)]].
  - apply bind_inv in R as [(tray & w2 & Hm & R) | [(e & Hm & ?) | (Hm & ?)]];
      pose proof Hm as Htray;
      apply processImageFile_tray in Hm as (-> & [(? & ? & ?) | (? & ? & ?)]);
      simplify_eq.
    apply bind_inv in R as [(trays & w3 & Hm & R) | [(e & Hm & ?) | (Hm & ?)]];
      apply makeTrays_run in Hm as (Hem3 & cs3 & Hcs3 & Htr); simplify_eq.
    apply bind_inv in R as [(chunks & w4 & Hm & R) | [(e & Hm & ?) | (Hm & ?)]];
      apply loadStickers_run in Hm as (k & cs4 & Hk & Hem4 & Hcs4 & Hov4 & Hld);
      simplify_eq.
    apply bind_inv in R as [(packs & w5 & Hm & R) | [(e & Hm & ?) | (Hm & ?)]];
      apply of_result_inv in Hm as (-> & [(? & Hbal & ?) | (? & Hbal & ?)]);
      simplify_eq.
    apply emit_inv in R as (? & Hem5 & Hcs5).
    destruct a. split; [done|].
    destruct Hld as (-> & stickers & Hall & Hsz & Hdist).
    eexists (length files), (load _ _), (cs3 ++ cs4 ++ []).
    split_and!; try done.
    + rewrite Hem5, Hem4, Hem3. by rewrite <- app_assoc.
    + eapply added_app; [done|]. eapply added_app; done.
    + eexists _, stickers, chunks. split_and!; try done.
      * unfold trays_for. fold n. destruct (n =? 1)%nat eqn:Hn.
        -- destruct Htr as [Htr _]. simplify_eq.
           apply Nat.eqb_eq in Hn. by rewrite Hn.
        -- destruct Htr as [Htr _]. simplify_eq. by rewrite length_replicate.
      * unfold numbers_for, overlay_texts in *. fold n.
        rewrite !omap_app, Hov4. cbn. rewrite app_nil_r.
        destruct (n =? 1)%nat eqn:Hn.
        -- by destruct Htr as [_ ->].
        -- destruct Htr as [_ ->]. by rewrite length_replicate.
  - apply emit_inv in Hh as (-> & Hem5 & Hcs5). split; [done|].
    apply bind_inv in R as [(tray & w3 & Hm & R) | [(e' & Hm & ?) | (Hm & ?)]];
      pose proof Hm as Htray;
      apply processImageFile_tray in Hm as (-> & [(? & ? & ?) | (? & ? & ?)]);
      simplify_eq.
    2:{ eexists 0, (error _), []. cbn. split_and!; try done; [lia|].
        by eexists _, _, _, _. }
    apply bind_inv in R as [(trays & w4 & Hm & R) | [(e' & Hm & ?) | (Hm & ?)]];
      apply makeTrays_run in Hm as (Hem3 & cs3 & Hcs3 & Htr);
      simplify_eq.
    2:{ exfalso. destruct (n =? 1)%nat; by destruct Htr. }
    apply bind_inv in R as [(chunks & w5 & Hm' & R) | [(e' & Hm' & ?) | (Hm' & ?)]];
      apply loadStickers_run in Hm' as (k & cs4 & Hk & Hem4 & Hcs4 & Hov4 & Hm');
      simplify_eq.
    + apply bind_inv in R as [(packs & w6 & Hm'' & R) | [(e' & Hm'' & ?) | (Hm'' & ?)]];
        apply of_result_inv in Hm'' as (-> & [(? & Hbal & ?) | (? & Hbal & ?)]);
        simplify_eq.
      destruct Hm' as (-> & stickers & Hall & _ & Hdist). exfalso.
      apply Forall2_length in Hall.
      eapply (balance_never_throws stickers (length files)); [lia | done..].
    + eexists k, (error _), (cs3 ++ cs4 ++ []). split_and!; try done.
      * rewrite Hem5, Hem4, Hem3. by rewrite <- app_assoc.
      * eapply added_app; [done|]. eapply added_app; done.
      * destruct Hm' as [Hfailed | (stickers & Hshort & Hdist)]; [done|].
        exfalso. by eapply (distribute_never_throws stickers (length files)).
  - exfalso.
    apply bind_inv in R as [(tray & w3 & Hm & R) | [(e' & Hm & ?) | (Hm & ?)]];
      pose proof Hm as Htray;
      apply processImageFile_tray in Hm as (-> & [(? & ? & ?) | (? & ? & ?)]);
      simplify_eq.
    apply bind_inv in R as [(trays & w4 & Hm & R) | [(e' & Hm & ?) | (Hm & ?)]];
      apply makeTrays_run in Hm as (Hem3 & cs3 & Hcs3 & Htr);
      simplify_eq.
    2:{ destruct (n =? 1)%nat; by destruct Htr. }
    apply bind_inv in R as [(chunks & w5 & Hm' & R) | [(e' & Hm' & ?) | (Hm' & ?)]];
      apply loadStickers_run in Hm' as (k & cs4 & Hk & Hem4 & Hcs4 & Hov4 & Hm');
      simplify_eq; try done.
    apply bind_inv in R as [(packs & w6 & Hm'' & R) | [(e' & Hm'' & ?) | (Hm'' & ?)]];
      apply of_result_inv in Hm'' as (-> & [(? & Hbal & ?) | (? & Hbal & ?)]);
      simplify_eq.
Qed.

(** What a conversion that ended with ['load'] has done. *)
Lemma finished_packs (trayFile : File) files (w : World S) trays packs :
  outcome_of (snd (convertImagesToPacks trayFile files w)) = Some (load trays packs) ->
  exists cs tray stickers chunks,
    added w (snd (convertImagesToPacks trayFile files w)) cs
    /\ processImageFile trayFile Tray w = (Ok tray, w)
    /\ trays = trays_for (numOfPacks_for (length files)) tray
    /\ overlay_texts cs = numbers_for (numOfPacks_for (length files))
    /\ Forall2 (processed (S:=S)) files stickers
    /\ Forall size_constrained stickers
    /\ distribute stickers 0 (replicate (numOfPacks_for (length stickers)) []) = inr chunks
    /\ balance (numOfPacks_for (length stickers)) chunks = inr packs.
Proof.
  destruct (convertImagesToPacks trayFile files w) as [r w1] eqn:R. cbn.
  apply convertImagesToPacks_run in R as (_ & k & ev & cs & Hem & Hcs & _ & R).
  unfold outcome_of. rewrite Hem, app_assoc, last_snoc. intros [= ->].
  destruct R as (_ & tray & stickers & chunks & ? & ? & ? & Hall & ? & ? & ?).
  exists cs, tray, stickers, chunks.
  rewrite <- (Forall2_length _ _ _ Hall). done.
Qed.

(** The number of packs of a conversion that ended with ['load']. *)
Lemma pack_count_aux (trayFile : File) files (w : World S) trays packs :
  outcome_of (snd (convertImagesToPacks trayFile files w)) = Some (load trays packs) ->
  length packs = numOfPacks_for (length files)
  /\ length files <= 30 * length packs < length files + 30.
Proof.
  intros Hload.
  apply finished_packs in Hload
    as (cs & tray & stickers & chunks & _ & _ & _ & _ & Hall & _ & Hdist & Hbal).
  apply Forall2_length in Hall. rewrite Hall.
  destruct (assembled stickers chunks packs Hdist Hbal) as (Hlen & _ & Hsz & Hcases).
  assert (Hpacks : length packs = numOfPacks_for (length stickers)).
  { destruct Hcases as [[_ ->] | (front & donor & final & -> & [[_ ->] | [_ ->]])];
      rewrite <- Hlen; rewrite ?length_app; done. }
  split; [done|].
  destruct (numOfPacks_for_bounds (length stickers)) as [Hz Hpos].
  rewrite Hpacks. destruct (decide (length stickers = 0)); lia.
Qed.

(** C5: a conversion that ends with ['load'] produces
    [Math.ceil(N / 30)] packs, the one number [n] with
    [N <= 30 n < N + 30]; for 31 stickers the packs have 28 and 3. *)
Theorem pack_count (trayFile : File) files (w : World S) trays packs :
  outcome_of (snd (convertImagesToPacks trayFile files w)) = Some (load trays packs) ->
  length packs = numOfPacks_for (length files)
  /\ length files <= 30 * length packs < length files + 30
  /\ (length files = 31 -> map length packs = [28; 3]).
Proof.
  intros Hload.
  destruct (pack_count_aux trayFile files w trays packs Hload) as (Hpacks & Hbounds).
  split_and!; [done | lia | lia |].
  apply finished_packs in Hload
    as (cs & tray & stickers & chunks & _ & _ & _ & _ & Hall & _ & Hdist & Hbal).
  apply Forall2_length in Hall. rewrite Hall.
  destruct (assembled stickers chunks packs Hdist Hbal) as (_ & _ & Hsz & Hcases).
  intros H31. rewrite H31 in *.
  destruct Hcases as [[Hone _] | (front & donor & final & -> & Hcases)];
    [vm_compute in Hone; lia|].
  apply sizes_of_last_two in Hsz as (Hn & _ & Hdonor & _ & Hcount).
  change (numOfPacks_for 31) with 2 in Hn.
  destruct front; [|cbn in Hn; lia]. cbn in Hcount.
  destruct Hcases as [[? _] | [_ ->]]; [lia|].
  cbn. rewrite length_take, length_app, length_drop. f_equal; [lia|]. f_equal. lia.
Qed.

(** C6: for at least 3 stickers, every pack of a conversion that ends with
    ['load'] has between 3 and 30 of them.  [chunks] are the packs as the
    loop over the stickers left them; when there are several and the last
    has fewer than 3, the last [3 - length final] stickers of the pack
    before it are moved to its front, and otherwise nothing moves. *)
Theorem pack_sizes (trayFile : File) files (w : World S) trays packs :
  3 <= length files ->
  outcome_of (snd (convertImagesToPacks trayFile files w)) = Some (load trays packs) ->
  Forall (fun pack => 3 <= length pack <= 30) packs
  /\ exists stickers chunks,
      Forall2 (processed (S:=S)) files stickers
      /\ distribute stickers 0 (replicate (numOfPacks_for (length files)) []) = inr chunks
      /\ (length chunks <= 1 -> packs = chunks)
      /\ forall front donor final,
          chunks = front ++ [donor; final] ->
          (3 <= length final -> packs = chunks)
          /\ (length final < 3 ->
              exists kept moved,
                donor = kept ++ moved
                /\ length moved = 3 - length final
                /\ packs = front ++ [kept; moved ++ final]).
Proof.
  intros Hmin Hload.
  apply finished_packs in Hload
    as (cs & tray & stickers & chunks & _ & _ & _ & _ & Hall & _ & Hdist & Hbal).
  pose proof (Forall2_length _ _ _ Hall) as Hcount. rewrite Hcount in Hmin |- *.
  destruct (assembled stickers chunks packs Hdist Hbal) as (Hlen & _ & Hsz & Hcases).
  split.
  - destruct Hcases as [[Hone ->] | (front & donor & final & -> & Hcases)].
    + destruct (numOfPacks_for_bounds (length stickers)) as [_ Hpos].
      specialize (Hpos ltac:(lia)).
      assert (Hn : numOfPacks_for (length stickers) = 1) by lia.
      rewrite Hn in Hsz, Hlen. cbn in Hsz.
      destruct chunks as [|chunk [|]]; cbn in Hlen; try lia.
      injection Hsz as Hsz. unfold chunk_size in Hsz.
      apply Forall_cons_2; [lia | apply Forall_nil_2].
    + apply sizes_of_last_two in Hsz as (Hn & Hfront & Hdonor & Hfinal & _).
      assert (Hfront' : Forall (fun pack : list DataURL => 3 <= length pack <= 30) front).
      { eapply Forall_impl; [exact Hfront|]. cbn. lia. }
      destruct Hcases as [[? ->] | [? ->]]; apply Forall_app; split; try done.
      * apply Forall_cons_2; [lia|]. apply Forall_cons_2; [lia|]. apply Forall_nil_2.
      * apply Forall_cons_2; [rewrite length_take; lia|].
        apply Forall_cons_2; [rewrite length_app, length_drop; lia|].
        apply Forall_nil_2.
  - exists stickers, chunks. split_and!; try done.
    + intros Hone. destruct Hcases as [[_ ->] | (front & donor & final & -> & _)]; [done|].
      rewrite length_app in Hone. cbn in Hone. lia.
    + intros front donor final ->.
      destruct Hcases as [[Hone _] | (front' & donor' & final' & Heq & Hcases)].
      { rewrite length_app in Hlen. cbn in Hlen. lia. }
      assert (front' = front /\ donor' = donor /\ final' = final) as (-> & -> & ->).
      { apply app_inj_2 in Heq as [-> [= -> ->]]; done. }
      apply sizes_of_last_two in Hsz as (_ & _ & Hdonor & _ & _).
      split.
      * intros ?. destruct Hcases as [[_ ->] | [? _]]; [done | lia].
      * intros ?. destruct Hcases as [[? _] | [_ ->]]; [lia|].
        eexists _, _. split_and!; [| | reflexivity].
        -- by rewrite take_drop.
        -- rewrite length_drop. lia.
Qed.

(** C7: in a conversion that ends with ['load'], the packs read one after
    the other are the stickers of the input files, in the order of the
    input: the i-th sticker of the concatenation is what the i-th file was
    encoded to. *)
Theorem order_preserved (trayFile : File) files (w : World S) trays packs :
  outcome_of (snd (convertImagesToPacks trayFile files w)) = Some (load trays packs) ->
  Forall2 (processed (S:=S)) files (concat packs).
Proof.
  intros Hload.
  apply finished_packs in Hload
    as (cs & tray & stickers & chunks & _ & _ & _ & _ & Hall & _ & Hdist & Hbal).
  destruct (assembled stickers chunks packs Hdist Hbal) as (_ & Hcat & _ & Hcases).
  assert (Hsame : concat packs = concat chunks).
  { destruct Hcases as [[_ ->] | (front & donor & final & -> & [[_ ->] | [_ ->]])];
      try done.
    rewrite !concat_app. cbn. rewrite !app_nil_r. f_equal.
    rewrite app_assoc. by rewrite take_drop. }
  by rewrite Hsame, Hcat.
Qed.

(** C9: in a conversion that ends with ['load'], with [tray] what
    [processImageFile(trayFile, 'tray')] resolved to: for 1 to 30 stickers
    there is one pack, its tray is [tray] itself and [addNumberToTray] was
    not called; for more than 30 the tray of pack [index] is what
    [addNumberToTray(tray, index + 1)] drew, and the calls were made in the
    order 1, 2, ..., up to the number of packs. *)
Theorem trays_of_the_packs (trayFile : File) files (w : World S) trays packs :
  outcome_of (snd (convertImagesToPacks trayFile files w)) = Some (load trays packs) ->
  exists tray cs,
    processImageFile trayFile Tray w = (Ok tray, w)
    /\ added w (snd (convertImagesToPacks trayFile files w)) cs
    /\ (1 <= length files <= 30 ->
        length packs = 1 /\ trays = [tray] /\ overlay_texts cs = [])
    /\ (30 < length files ->
        1 < length packs
        /\ trays
           = map (fun index =>
                    mkDataURL "image/png" (drawNumber_PNG tray (pretty (index + 1)%nat)))
               (seq 0 (length packs))
        /\ overlay_texts cs
           = map (fun index => pretty (index + 1)%nat) (seq 0 (length packs))).
Proof.
  intros Hload.
  destruct (pack_count_aux trayFile files w trays packs Hload) as (Hpacks & Hbounds).
  apply finished_packs in Hload
    as (cs & tray & stickers & chunks & Hcs & Htray & -> & Hov & _).
  exists tray, cs. rewrite Hov, <- Hpacks. split_and!; try done.
  - intros Hfew. assert (Hone : length packs = 1) by lia.
    unfold trays_for, numbers_for. by rewrite Hone.
  - intros Hmany. assert (Hseveral : 1 < length packs) by lia.
    unfold trays_for, numbers_for.
    destruct (Nat.eqb_spec (length packs) 1); [lia | done].
Qed.

(** C4 (as amended): in a conversion that ends with ['load'], every
    sticker of every pack came out of the quality-constrained encoder: it
    is a WebP image of at most 100,000 bytes.  The trays did not:
    [processImageFile] resizes a tray with [toWebp = false], which calls
    nothing of the module and leaves the world as it was, and every tray
    of the packs is a PNG data URL, of any size. *)
Theorem stickers_are_constrained_and_trays_are_png
    (trayFile : File) files (w : World S) trays packs :
  outcome_of (snd (convertImagesToPacks trayFile files w)) = Some (load trays packs) ->
  Forall (Forall size_constrained) packs
  /\ Forall (fun tray => mime tray = "image/png") trays
  /\ snd (processImageFile trayFile Tray w) = w.
Proof.
  intros Hload.
  apply finished_packs in Hload
    as (cs & tray & stickers & chunks & _ & Htray & -> & _ & _ & Hok & Hdist & Hbal).
  destruct (assembled stickers chunks packs Hdist Hbal) as (_ & Hcat & _ & Hcases).
  split_and!.
  - apply Forall_concat.
    assert (Hsame : concat packs = concat chunks).
    { destruct Hcases as [[_ ->] | (front & donor & final & -> & [[_ ->] | [_ ->]])];
        try done.
      rewrite !concat_app. cbn. rewrite !app_nil_r. f_equal.
      rewrite app_assoc. by rewrite take_drop. }
    by rewrite Hsame, Hcat.
  - pose proof Htray as Hpng.
    apply processImageFile_tray in Hpng as (_ & [(image & _ & [= ->]) | (? & _ & ?)]);
      [|done].
    unfold trays_for. case_match.
    + by apply Forall_cons_2; [|apply Forall_nil_2].
    + apply Forall_forall. intros t Ht. apply list_elem_of_fmap in Ht as (i & -> & _).
      done.
  - by rewrite Htray.
Qed.

End PackFacts.

(** The conversion of 31 files ends with ['load'], two trays and packs of
    28 and 3 stickers. *)
Lemma thirty_one_loaded :
  outcome_of thirty_one_converted
  = Some (load [small_tray; small_tray]
               [replicate 28 small_sticker; replicate 3 small_sticker]).
Proof. vm_compute. reflexivity. Qed.

Lemma pack_count_witness :
  length [replicate 28 small_sticker; replicate 3 small_sticker]
  = numOfPacks_for (length thirty_one_files)
  /\ length thirty_one_files
     <= 30 * length [replicate 28 small_sticker; replicate 3 small_sticker]
     < length thirty_one_files + 30
  /\ (length thirty_one_files = 31 ->
      map length [replicate 28 small_sticker; replicate 3 small_sticker] = [28; 3]).
Proof.
  apply (@pack_count Z ten_bytes nat nat numbered 1 thirty_one_files (fresh 16)
           [small_tray; small_tray]).
  vm_compute. reflexivity.
Defined.

Lemma pack_sizes_witness :
  Forall (fun pack => 3 <= length pack <= 30)
    [replicate 28 small_sticker; replicate 3 small_sticker]
  /\ exists stickers chunks,
      Forall2 (@processed Z ten_bytes nat nat numbered) thirty_one_files stickers
      /\ distribute stickers 0 (replicate (numOfPacks_for (length thirty_one_files)) [])
         = inr chunks
      /\ (length chunks <= 1 ->
          [replicate 28 small_sticker; replicate 3 small_sticker] = chunks)
      /\ forall front donor final,
          chunks = front ++ [donor; final] ->
          (3 <= length final ->
           [replicate 28 small_sticker; replicate 3 small_sticker] = chunks)
          /\ (length final < 3 ->
              exists kept moved,
                donor = kept ++ moved
                /\ length moved = 3 - length final
                /\ [replicate 28 small_sticker; replicate 3 small_sticker]
                   = front ++ [kept; moved ++ final]).
Proof.
  apply (@pack_sizes Z ten_bytes nat nat numbered 1 thirty_one_files (fresh 16)
           [small_tray; small_tray]).
  - vm_compute. lia.
  - vm_compute. reflexivity.
Defined.

Lemma order_preserved_witness :
  Forall2 (@processed Z ten_bytes nat nat numbered) thirty_one_files
    (concat [replicate 28 small_sticker; replicate 3 small_sticker]).
Proof.
  apply (@order_preserved Z ten_bytes nat nat numbered 1 thirty_one_files (fresh 16)
           [small_tray; small_tray]).
  vm_compute. reflexivity.
Defined.

Lemma trays_of_the_packs_witness :
  exists tray cs,
    @processImageFile Z ten_bytes nat nat numbered 1 Tray (fresh 16) = (Ok tray, fresh 16)
    /\ added (fresh 16) thirty_one_converted cs
    /\ (1 <= length thirty_one_files <= 30 ->
        length [replicate 28 small_sticker; replicate 3 small_sticker] = 1
        /\ [small_tray; small_tray] = [tray] /\ overlay_texts cs = [])
    /\ (30 < length thirty_one_files ->
        1 < length [replicate 28 small_sticker; replicate 3 small_sticker]
        /\ [small_tray; small_tray]
           = map (fun index =>
                    mkDataURL "image/png"
                      (@drawNumber_PNG nat nat numbered tray (pretty (index + 1)%nat)))
               (seq 0 (length [replicate 28 small_sticker; replicate 3 small_sticker]))
        /\ overlay_texts cs
           = map (fun index => pretty (index + 1)%nat)
               (seq 0 (length [replicate 28 small_sticker; replicate 3 small_sticker]))).
Proof.
  apply (@trays_of_the_packs Z ten_bytes nat nat numbered 1 thirty_one_files (fresh 16)).
  vm_compute. reflexivity.
Defined.

Lemma stickers_are_constrained_witness :
  Forall (Forall size_constrained)
    [replicate 28 small_sticker; replicate 3 small_sticker]
  /\ Forall (fun tray => mime tray = "image/png") [small_tray; small_tray]
  /\ snd (@processImageFile Z ten_bytes nat nat numbered 1 Tray (fresh 16)) = fresh 16.
Proof.
  apply (@stickers_are_constrained_and_trays_are_png Z ten_bytes nat nat numbered
           1 thirty_one_files (fresh 16)).
  vm_compute. reflexivity.
Defined.

(** C4: three stickers and a tray file whose PNG has 100,001 bytes.  The
    conversion ends with ['load']; the tray of the pack is that PNG, above
    the ceiling, and [encode] was called for the three stickers only. *)
Lemma tray_is_neither_webp_nor_constrained :
  let converted :=
    snd (@convertImagesToPacks Z ten_bytes nat nat numbered
           (Z.to_nat 100001) [1; 1; 1] (fresh 16)) in
  match outcome_of converted with
  | Some (load [tray] packs) =>
      mime tray = "image/png"
      /\ byteLength tray = 100001%Z
      /\ packs = [[small_sticker; small_sticker; small_sticker]]
  | _ => False
  end
  /\ encode_qualities (calls converted) = [100; 100; 100]%Z.
Proof. vm_compute. done. Qed.

(** ** The archive *)

Lemma zip_file_first {Blob} (front : list (string * Blob)) name blob back :
  Forall (fun entry => fst entry <> name) front ->
  zip_file (front ++ (name, blob) :: back) name = Some blob.
Proof.
  unfold zip_file. induction front as [|[other b] front IH]; intros Hfront; cbn.
  - by rewrite String.eqb_refl.
  - apply Forall_cons in Hfront as [Hother Hfront]. cbn in Hother.
    apply String.eqb_neq in Hother. rewrite Hother. by apply IH.
Qed.

Lemma zip_file_found {Blob} (zip : list (string * Blob)) name :
  In name (map fst zip) -> exists blob, zip_file zip name = Some blob.
Proof.
  unfold zip_file. induction zip as [|[other b] zip IH]; cbn; [done|].
  intros [-> | Hin].
  - rewrite String.eqb_refl. by exists b.
  - destruct (String.eqb other name); [by exists b | by apply IH].
Qed.

Lemma all_blobs_found {Blob} (zip : list (string * Blob)) paths :
  (forall path, In path paths -> In path (map fst zip)) ->
  exists blobs,
    all_blobs zip paths = inr blobs
    /\ Forall2 (fun path blob => zip_file zip path = Some blob) paths blobs.
Proof.
  induction paths as [|path paths IH]; intros Hin; cbn.
  - by exists [].
  - destruct (zip_file_found zip path) as [blob Hblob]; [apply Hin; by left|].
    destruct IH as (blobs & -> & Hall); [intros p Hp; apply Hin; by right|].
    unfold file_blob. rewrite Hblob. exists (blob :: blobs). split; [done|].
    by constructor.
Qed.

(** The first image path is the name of the first entry that passes the
    test. *)
Lemma first_image_path {Blob} (zip : list (string * Blob)) first others :
  List.filter isImagePath (map fst zip) = first :: others ->
  exists front blob back,
    zip = front ++ (first, blob) :: back
    /\ Forall (fun entry => isImagePath (fst entry) = false) front
    /\ isImagePath first = true.
Proof.
  induction zip as [|[name b] zip IH]; cbn; [done|].
  destruct (isImagePath name) eqn:Hname.
  - intros [= -> _]. by exists [], b, zip.
  - intros Hrest. destruct (IH Hrest) as (front & blob & back & -> & Hfront & Hfirst).
    exists ((name, b) :: front), blob, back. split_and!; try done.
    by constructor.
Qed.

Section UnzipFacts.
Context {Data Blob : Type} `{JSZip Data Blob}.

(** C10: when the archive has at least 3 entries that pass the test of
    [zip.forEach], [unzip] returns; the tray file is the blob of the first
    such entry in the order of the archive, and the same blob is the first
    of the sticker files, of which there are as many as such entries. *)
Theorem tray_is_also_the_first_sticker (data : Data) zip :
  loadAsync data = inr zip ->
  3 <= length (List.filter isImagePath (map fst zip)) ->
  exists front name blob back others,
    zip = front ++ (name, blob) :: back
    /\ Forall (fun entry => isImagePath (fst entry) = false) front
    /\ isImagePath name = true
    /\ unzip data = inr (mkUnzipped blob (blob :: others))
    /\ Datatypes.S (length others) = length (List.filter isImagePath (map fst zip)).
Proof.
  intros Hzip Hcount. unfold unzip. rewrite Hzip.
  destruct (Nat.ltb_spec (length (List.filter isImagePath (map fst zip))) 3) as [|_];
    [lia|].
  destruct (List.filter isImagePath (map fst zip)) as [|first paths] eqn:Hpaths;
    [cbn in Hcount; lia|].
  destruct (first_image_path zip first paths Hpaths)
    as (front & blob & back & Hsplit & Hfront & Hfirst).
  assert (Hblob : zip_file zip first = Some blob).
  { rewrite Hsplit. apply zip_file_first.
    eapply Forall_impl; [exact Hfront|]. cbn. intros entry Hno Heq.
    rewrite Heq in Hno. congruence. }
  destruct (all_blobs_found zip (first :: paths)) as (blobs & Hall & Hblobs).
  { intros path Hin. rewrite <- Hpaths in Hin. by apply filter_In in Hin as [? _]. }
  rewrite Hall. unfold file_blob. rewrite Hblob.
  destruct blobs as [|blob' others]; [by apply Forall2_length in Hblobs|].
  apply Forall2_cons in Hblobs as [Hblob' Hothers].
  rewrite Hblob in Hblob'. injection Hblob' as <-.
  exists front, first, blob, back, others. split_and!; try done.
  apply Forall2_length in Hothers. cbn. by rewrite Hothers.
Qed.

End UnzipFacts.

(** An archive with a resource fork, a text file and three images. *)
Lemma tray_is_also_the_first_sticker_witness :
  exists front name blob back others,
    [("__MACOSX/._a.png", 9); ("readme.txt", 8); ("a.png", 1); ("b.jpg", 2); ("c.png", 3)]
    = front ++ (name, blob) :: back
    /\ Forall (fun entry => isImagePath (fst entry) = false) front
    /\ isImagePath name = true
    /\ @unzip _ nat listed
         [("__MACOSX/._a.png", 9); ("readme.txt", 8); ("a.png", 1); ("b.jpg", 2);
          ("c.png", 3)]
       = inr (mkUnzipped blob (blob :: others))
    /\ Datatypes.S (length others)
       = length (List.filter isImagePath
                   (map fst [("__MACOSX/._a.png", 9); ("readme.txt", 8); ("a.png", 1);
                             ("b.jpg", 2); ("c.png", 3)])).
Proof.
  apply (@tray_is_also_the_first_sticker _ nat listed).
  - reflexivity.
  - vm_compute. lia.
Defined.

(** * More of the code *)

(** ** The codec bridge *)

#[local] Open Scope Z_scope.

Section BridgeMore.
Context {S : Type} `{Libwebp S} {File Image : Type} `{Browser File Image}.

(** Where one decode call ends, on the module. *)
Lemma convertWebpURLToPngURL_path imageUrl (w : World S) r w1 :
  convertWebpURLToPngURL imageUrl w = (r, w1) ->
  (matches_image_head (mime imageUrl) = false
   /\ r = Throw InvalidCharacterError /\ w1 = w)
  \/ (matches_image_head (mime imageUrl) = true
      /\ ((exists e,
              r = Throw e
              /\ (forall d,
                     @convertWebpURLToPngURL S (with_destroy_buffer d) File Image _
                       imageUrl w
                     = (Throw e, w1))
              /\ exists cs,
                  added w w1 cs
                  /\ omap destroyed cs = []
                  /\ ((allocations cs = []
                       /\ create_buffer_with_size
                            (Z.of_nat (length (payload imageUrl))) (module w)
                          = (inl e, module w1))
                      \/ exists p, allocations cs = [p]))
          \/ exists p ret rp width height result m,
              decode_steps (payload imageUrl) (module w) p ret rp width height result m
              /\ ((exists e,
                      r = Throw e
                      /\ destroy_buffer p m = (inl e, module w1)
                      /\ added w w1
                           [call_create_buffer_with_size
                              (Z.of_nat (length (payload imageUrl))) p;
                            call_decode p (Z.of_nat (length (payload imageUrl))) ret;
                            call_get_decode_result_pointer rp;
                            call_get_decode_result_width width;
                            call_get_decode_result_height height;
                            call_free_result rp])
                  \/ (destroy_buffer p m = (inr tt, module w1)
                      /\ added w w1
                           [call_create_buffer_with_size
                              (Z.of_nat (length (payload imageUrl))) p;
                            call_decode p (Z.of_nat (length (payload imageUrl))) ret;
                            call_get_decode_result_pointer rp;
                            call_get_decode_result_width width;
                            call_get_decode_result_height height;
                            call_free_result rp;
                            call_destroy_buffer p]
                      /\ match putImageData_PNG result width height with
                         | inl e => r = Throw e
                         | inr png => r = Ok (mkDataURL "image/png" png)
                         end)))).
Proof.
  unfold convertWebpURLToPngURL, atob_of.
  destruct (matches_image_head (mime imageUrl));
    [|cbn; intros [= <- <-]; by left].
  unfold bind, api, HEAP8_set, copy_out, of_result, ret, throw.
  cbn. intros R. right. split; [done|].
  repeat case_match; simplify_eq; cbn in *.
  all: repeat match goal with u : unit |- _ => destruct u end.
  all: try (left; eexists; split; [reflexivity|]; split; [intros d; reflexivity|];
            eexists; split;
            [unfold added; cbn;
             first [symmetry; apply app_nil_r
                   | rewrite <- ?app_assoc; f_equal; cbn; reflexivity]|];
            split; [reflexivity|];
            first [left; split; [reflexivity | first [reflexivity | eassumption]]
                  | right; eexists; reflexivity]).
  all: right; eexists _, _, _, _, _, _, _.
  all: (split;
        [eexists _, _, _, _, _; split_and!; try eassumption; try reflexivity;
         unfold in_heap; cbn; lia|]).
  all: first
    [ left; eexists; split_and!;
      [reflexivity | eassumption | unfold added; cbn; by rewrite <- !app_assoc]
    | right; split; [eassumption|];
      split; [unfold added; cbn; by rewrite <- !app_assoc|];
      unfold region;
      match goal with E : putImageData_PNG _ _ _ = _ |- _ => by rewrite E end ].
Qed.

(** X1: an encode call that throws has completed no [destroy_buffer].
    Either [destroy_buffer] had no part in the call: with any other
    [destroy_buffer] in its place the call throws the same error and
    leaves the same world; then [create_buffer] itself trapped, or the one
    buffer it allocated is never passed to [destroy_buffer].  Or every
    step before it returned ([encode_steps], the result freed), it was
    called last on the allocated buffer, and what the call throws is its
    trap. *)
Theorem encode_that_throws imageData quality (w : World S) e w1 :
  convertImageDataToWebpURL imageData quality w = (Throw e, w1) ->
  exists cs,
    added w w1 cs
    /\ omap destroyed cs = []
    /\ (((forall d,
            @convertImageDataToWebpURL S (with_destroy_buffer d) imageData quality w
            = (Throw e, w1))
         /\ ((allocations cs = []
              /\ create_buffer (width imageData) (height imageData) (module w)
                 = (inl e, module w1))
             \/ exists p, allocations cs = [p]))
        \/ exists p rp size result m,
            cs = [call_create_buffer (width imageData) (height imageData) p;
                  call_encode p (width imageData) (height imageData) quality;
                  call_get_encode_result_pointer rp;
                  call_get_encode_result_size size;
                  call_free_result rp]
            /\ encode_steps imageData quality (module w) p rp size result m
            /\ destroy_buffer p m = (inl e, module w1)).
Proof.
  intros R.
  apply convertImageDataToWebpURL_path in R
    as [(Hsame & cs & Hcs & Hnot & Halloc)
       | (p & rp & size & result & m & Hsteps & Hdestroy & Hcs)].
  - exists cs. split; [done|]. split; [done|]. by left.
  - eexists. split; [exact Hcs|]. split; [done|]. right.
    by exists p, rp, size, result, m.
Qed.

(** X2: a decode call that throws.  When the head of the URL is not
    [data:image/] with letters a to z, [atob] throws before anything is
    allocated and the world is as it was.  Otherwise either
    [destroy_buffer] had no part in the call (with any other
    [destroy_buffer] in its place the call throws the same error and
    leaves the same world), and nothing was passed to it; or every step
    before it returned and it trapped, called on the allocated buffer
    after the result was freed; or it returned as well, both regions are
    released, and the error is the one the canvas step threw for the
    [width * height * 4] bytes copied from the result region. *)
Theorem decode_that_throws imageUrl (w : World S) e w1 :
  convertWebpURLToPngURL imageUrl w = (Throw e, w1) ->
  (matches_image_head (mime imageUrl) = false
   /\ e = InvalidCharacterError /\ w1 = w)
  \/ (matches_image_head (mime imageUrl) = true
      /\ exists cs,
          added w w1 cs
          /\ (((forall d,
                  @convertWebpURLToPngURL S (with_destroy_buffer d) File Image _
                    imageUrl w
                  = (Throw e, w1))
               /\ omap destroyed cs = []
               /\ ((allocations cs = []
                    /\ create_buffer_with_size
                         (Z.of_nat (length (payload imageUrl))) (module w)
                       = (inl e, module w1))
                   \/ exists p, allocations cs = [p]))
              \/ exists p ret rp width height result m,
                  decode_steps (payload imageUrl) (module w)
                    p ret rp width height result m
                  /\ allocations cs = [p]
                  /\ ((destroy_buffer p m = (inl e, module w1)
                       /\ releases cs = [call_free_result rp])
                      \/ (destroy_buffer p m = (inr tt, module w1)
                          /\ releases cs = [call_free_result rp; call_destroy_buffer p]
                          /\ putImageData_PNG result width height = inl e)))).
Proof.
  intros R.
  apply convertWebpURLToPngURL_path in R
    as [(Hhead & [= <-] & ->) | (Hhead & Hpath)]; [by left|].
  right. split; [done|].
  destruct Hpath
    as [(e' & [= <-] & Hsame & cs & Hcs & Hnot & Halloc)
       | (p & ret & rp & width & height & result & m & Hsteps
          & [(e' & [= <-] & Hdestroy & Hcs) | (Hdestroy & Hcs & Hcanvas)])].
  - exists cs. split; [done|]. by left.
  - eexists. split; [exact Hcs|]. right.
    exists p, ret, rp, width, height, result, m. split_and!; try done.
    by left.
  - eexists. split; [exact Hcs|]. right.
    exists p, ret, rp, width, height, result, m. split_and!; try done.
    right. split_and!; try done.
    destruct (putImageData_PNG result width height); by simplify_eq.
Qed.

(** X4: [HEAP8.set(src, offset)] that returns has changed the bytes from
    [offset] to [offset + src.length] and nothing else: the copy-out of
    that region gives [src] back, the memory keeps its length, the bytes
    outside the region and the module's own state are as before. *)
Theorem heap_write_then_copy_out src offset (w : World S) w1 :
  HEAP8_set src offset w = (Ok tt, w1) ->
  copy_out offset (Z.of_nat (length src)) w1 = (Ok src, w1)
  /\ length (HEAP8 (module w1)) = length (HEAP8 (module w))
  /\ native (module w1) = native (module w)
  /\ forall i : nat,
      (Z.of_nat i < offset \/ offset + Z.of_nat (length src) <= Z.of_nat i) ->
      HEAP8 (module w1) !! i = HEAP8 (module w) !! i.
Proof.
  unfold HEAP8_set, copy_out.
  destruct (0 <=? offset) eqn:Hoff; [|done].
  destruct (offset + Z.of_nat (length src) <=? Z.of_nat (length (HEAP8 (module w)))) eqn:Hfit;
    [|done].
  cbn. intros [= <-]. cbn.
  apply Z.leb_le in Hoff, Hfit.
  set (heap := HEAP8 (module w)) in *.
  set (o := Z.to_nat offset).
  assert (Ho : (o + length src <= length heap)%nat) by lia.
  assert (Hlen : length (take o heap ++ src ++ drop (o + length src) heap) = length heap).
  { rewrite !length_app, length_take, length_drop. lia. }
  rewrite Hlen.
  destruct (0 <=? Z.of_nat (length src)) eqn:Hs; [|lia].
  destruct (0 <=? offset) eqn:Hoff2; [|lia]. cbn.
  destruct (offset + Z.of_nat (length src) <=? Z.of_nat (length heap)) eqn:Hfit'; [|lia].
  split_and!; try done.
  - f_equal. f_equal. rewrite Nat2Z.id. fold o.
    rewrite drop_app_length'; [|rewrite length_take; lia].
    rewrite take_app_length. done.
  - intros i Hi.
    destruct (decide (i < o)%nat) as [Hlt|Hge].
    + rewrite lookup_app_l by (rewrite length_take; lia).
      rewrite lookup_take_lt by done. done.
    + assert (o + length src <= i)%nat by lia.
      rewrite lookup_app_r by (rewrite length_take; lia).
      rewrite lookup_app_r by (rewrite length_take; lia).
      rewrite lookup_drop. f_equal. rewrite length_take. lia.
Qed.
End BridgeMore.

Section LoopCalls.
Context {S : Type} `{Libwebp S} {File Image : Type} `{Browser File Image}.

Lemma passed_in_round_bounds k :
  (k < 12)%nat -> 13 <= passed_in_round k <= 100.
Proof.
  intros Hk.
  do 12 (destruct k as [|k]; [vm_compute; split; discriminate|]).
  lia.
Qed.

(** The calls of a run of the loop that returns or fails for the size. *)
Lemma encodeLoop_blocks fuel k url imageData (w : World S) r w1 :
  (k < 12)%nat -> (12 <= fuel + k)%nat ->
  encodeLoop fuel url imageData (quality_in_round k) w = (r, w1) ->
  exists cs,
    added w w1 cs
    /\ Forall (fun q => 13 <= q <= 100) (encode_qualities cs)
    /\ match r with
       | Ok _ =>
           exists blocks,
             (1 <= length blocks <= 12 - k)%nat
             /\ Forall is_encode_block blocks
             /\ cs = concat blocks
       | _ => True
       end.
Proof.
  intros Hk Hfuel R.
  pose proof R as R'.
  apply encodeLoop_run in R' as (_ & sizes & cs & Hlen & _ & Hcs & _ & _ & Hr); try done.
  exists cs. split; [done|].
  assert (Hq : forall n, (k + n <= 12)%nat ->
             Forall (fun q => 13 <= q <= 100) (map passed_in_round (seq k n))).
  { intros n Hn. apply Forall_forall. intros q Hin.
    apply list_elem_of_fmap in Hin as (j & -> & Hj).
    apply elem_of_seq in Hj. apply passed_in_round_bounds. lia. }
  split.
  - destruct r as [u | e |]; [| | done].
    + destruct Hr as (_ & _ & -> & _). apply Hq. lia.
    + destruct Hr as [(size & _ & _ & _ & _ & -> & _) | (_ & [-> | ->] & _)];
        apply Hq; lia.
  - destruct r as [u | e |]; [| done..]. clear Hr Hq sizes Hlen.
    revert k w cs Hk Hfuel R Hcs.
    induction fuel as [|fuel IH]; intros k w cs Hk Hfuel R Hcs; [lia|].
    cbn [encodeLoop] in R. unfold useChrome in R.
    apply bind_inv in R as [(webpUrl & w2 & Hm & R) | [(e & Hm & ?) | (Hm & ?)]]; try done.
    apply convertImageDataToWebpURL_run in Hm
      as (_ & _ & cs0 & Hcs0 & _ & p & rp & size & -> & _).
    assert (Hblock : is_encode_block
              [call_create_buffer (width imageData) (height imageData) p;
               call_encode p (width imageData) (height imageData)
                 (Math_ceil (quality_in_round k * 100));
               call_get_encode_result_pointer rp;
               call_get_encode_result_size size;
               call_free_result rp;
               call_destroy_buffer p]).
    { eexists _, _, _, _, _, _. split; [reflexivity|].
      by apply passed_in_round_bounds. }
    destruct (byteLength webpUrl <=? 100000).
    + inversion R; subst. eexists [_]. cbn. split_and!; [lia | lia | | ].
      * by apply Forall_cons_2; [|apply Forall_nil_2].
      * rewrite app_nil_r. by eapply added_inj.
    + change (quality_in_round k - 0.08)%float
        with (quality_in_round (Datatypes.S k)) in R.
      rewrite floor_reached in R by done.
      case_bool_decide as Hlast; [done|].
      apply bind_inv in R as [(? & w3 & Hc & R) | [(? & Hc & ?) | (Hc & ?)]];
        apply console_error_inv in Hc as (? & _ & Hcs3 & _); try done.
      destruct (encodeLoop fuel url imageData (quality_in_round (Datatypes.S k)) w3)
        as [r' w'] eqn:Hrest.
      pose proof Hrest as Hrun.
      apply encodeLoop_run in Hrun as (_ & _ & cs' & _ & _ & Hcs' & _); [|lia..].
      injection R as -> ->.
      destruct (IH (Datatypes.S k) w3 cs') as (blocks & Hn & Hall & ->); try done; [lia..|].
      eexists (_ :: blocks). cbn [length concat]. split_and!; [lia | lia | | ].
      * by apply Forall_cons_2.
      * eapply added_inj; [exact Hcs|].
        eapply added_app; [exact Hcs0|].
        change (concat blocks) with ([] ++ concat blocks).
        eapply added_app; [exact Hcs3 | exact Hcs'].
Qed.
End LoopCalls.

#[local] Open Scope nat_scope.

Section ConversionCalls.
Context {S : Type} `{Libwebp S} {File Image : Type} `{Browser File Image}.

Lemma encode_qualities_app cs ds :
  encode_qualities (cs ++ ds) = encode_qualities cs ++ encode_qualities ds.
Proof. unfold encode_qualities. apply omap_app. Qed.

Lemma processImageFile_stickers_calls (file : File) (w : World S) r w1 :
  processImageFile file Stickers w = (r, w1) ->
  exists cs,
    added w w1 cs
    /\ Forall (fun q => (13 <= q <= 100)%Z) (encode_qualities cs)
    /\ match r with
       | Ok _ =>
           exists blocks,
             1 <= length blocks <= 12
             /\ Forall is_encode_block blocks
             /\ cs = concat blocks
       | _ => True
       end.
Proof.
  intros R. unfold processImageFile, resizeAndConvert in R. cbv zeta in R.
  apply bind_inv in R as [(image & w2 & Hm & R) | [(e & Hm & ->) | (Hm & ->)]];
    apply of_result_inv in Hm as (-> & [(? & Hread & ?) | (? & Hread & ?)]);
    simplify_eq.
  - apply (encodeLoop_blocks 12 0) in R as (cs & Hcs & Hq & R); [|lia..].
    exists cs. by split_and!.
  - exists []. split_and!; try done. apply added_nil.
Qed.

Lemma loadStickers_calls (files : list File) i packs (w : World S) r w1 :
  loadStickers files i packs w = (r, w1) ->
  exists cs,
    added w w1 cs
    /\ Forall (fun q => (13 <= q <= 100)%Z) (encode_qualities cs)
    /\ match r with
       | Ok _ =>
           exists blocks,
             length files <= length blocks <= 12 * length files
             /\ Forall is_encode_block blocks
             /\ cs = concat blocks
       | _ => True
       end.
Proof.
  revert i packs w r w1.
  induction files as [|file files IH]; intros i packs w r w1 R; cbn [loadStickers] in R.
  - inversion R; subst. exists []. split_and!; try done; [apply added_nil|].
    exists []. cbn. split_and!; try done; lia.
  - apply bind_inv in R as [(sticker & w2 & Hm & R) | [(e & Hm & ?) | (Hm & ?)]];
      apply processImageFile_stickers_calls in Hm as (cs0 & Hcs0 & Hq0 & Hok);
      simplify_eq; [|by exists cs0..].
    apply bind_inv in R as [([] & w3 & Hm & R) | [(e & Hm & ?) | (Hm & ?)]];
      apply emit_inv in Hm as (? & _ & Hcs3); simplify_eq.
    apply bind_inv in R as [(packs' & w4 & Hm & R) | [(e & Hm & ?) | (Hm & ?)]];
      apply of_result_inv in Hm as (-> & [(? & Hpush & ?) | (? & Hpush & ?)]);
      simplify_eq.
    2:{ exists (cs0 ++ []). split_and!; try done.
        - by eapply added_app.
        - by rewrite app_nil_r. }
    apply IH in R as (cs & Hcs & Hq & R).
    exists (cs0 ++ [] ++ cs). split_and!.
    + eapply added_app; [done|]. by eapply added_app.
    + rewrite !encode_qualities_app. cbn. by apply Forall_app.
    + destruct r as [chunks | e |]; try done.
      destruct Hok as (blocks0 & Hn0 & Hall0 & ->).
      destruct R as (blocks & Hn & Hall & ->).
      exists (blocks0 ++ blocks). rewrite length_app, concat_app. cbn [length app].
      split_and!; try done; try lia. by apply Forall_app.
Qed.

Lemma makeTrays_calls n tray index (packs : list (list DataURL)) (w : World S) r w1 :
  makeTrays n tray index packs w = (r, w1) ->
  exists texts, added w w1 (map call_addNumberToTray texts).
Proof.
  revert index w r w1.
  induction packs as [|pack packs IH]; intros index w r w1 R; cbn [makeTrays] in R.
  - inversion R; subst. exists []. apply added_nil.
  - apply bind_inv in R as [(t & w2 & Hm & R) | [(e & Hm & ?) | (Hm & ?)]].
    + assert (Hfirst : exists texts, added w w2 (map call_addNumberToTray texts)).
      { destruct (n =? 1).
        - inversion Hm; subst. exists []. apply added_nil.
        - inversion Hm; subst. exists [pretty (index + 1)]. done. }
      destruct Hfirst as (texts0 & Hcs0).
      apply bind_inv in R as [(ts & w3 & Hm' & R) | [(e & Hm' & ?) | (Hm' & ?)]];
        apply IH in Hm' as (texts & Hcs); simplify_eq.
      * inversion R; subst. exists (texts0 ++ texts). rewrite map_app.
        by eapply added_app.
      * exists (texts0 ++ texts). rewrite map_app. by eapply added_app.
      * exists (texts0 ++ texts). rewrite map_app. by eapply added_app.
    + destruct (n =? 1); inversion Hm.
    + destruct (n =? 1); inversion Hm.
Qed.

(** The calls of a conversion. *)
Lemma convertImagesToPacks_calls (trayFile : File) files (w : World S) r w1 :
  convertImagesToPacks trayFile files w = (r, w1) ->
  exists texts cs,
    added w w1 (map call_addNumberToTray texts ++ cs)
    /\ Forall (fun q => (13 <= q <= 100)%Z) (encode_qualities cs)
    /\ forall trays packs,
        outcome_of w1 = Some (load trays packs) ->
        exists blocks,
          length files <= length blocks <= 12 * length files
          /\ Forall is_encode_block blocks
          /\ cs = concat blocks.
Proof.
  intros R. pose proof R as Hrun. apply convertImagesToPacks_run in Hrun as (-> & _).
  unfold convertImagesToPacks in R. cbv zeta in R.
  apply try_catch_inv in R as [(a & R & _) | [(e & w2 & R & Hh) | (_ & ?)]]; [| |done].
  - apply bind_inv in R as [(tray & w2 & Hm & R) | [(e & Hm & ?) | (Hm & ?)]];
      apply processImageFile_tray in Hm as (-> & _); simplify_eq.
    apply bind_inv in R as [(trays & w3 & Hm & R) | [(e & Hm & ?) | (Hm & ?)]];
      apply makeTrays_calls in Hm as (texts & Hcs3); simplify_eq.
    apply bind_inv in R as [(chunks & w4 & Hm & R) | [(e & Hm & ?) | (Hm & ?)]];
      apply loadStickers_calls in Hm as (cs4 & Hcs4 & Hq & Hld); simplify_eq.
    apply bind_inv in R as [(packs & w5 & Hm & R) | [(e & Hm & ?) | (Hm & ?)]];
      apply of_result_inv in Hm as (-> & _); simplify_eq.
    apply emit_inv in R as (_ & _ & Hcs5).
    exists texts, cs4. split_and!; try done.
    + eapply added_app; [done|]. rewrite <- (app_nil_r cs4). by eapply added_app.
  - apply emit_inv in Hh as (_ & Hem5 & Hcs5).
    assert (Hnot : forall trays packs, outcome_of w1 <> Some (load trays packs)).
    { intros trays packs. unfold outcome_of. by rewrite Hem5, last_snoc. }
    apply bind_inv in R as [(tray & w3 & Hm & R) | [(e' & Hm & ?) | (Hm & ?)]];
      apply processImageFile_tray in Hm as (-> & _); simplify_eq.
    2:{ exists [], []. split_and!; try done. intros ?? Hl. by apply Hnot in Hl. }
    apply bind_inv in R as [(trays & w4 & Hm & R) | [(e' & Hm & ?) | (Hm & ?)]];
      apply makeTrays_calls in Hm as (texts & Hcs3); simplify_eq.
    2:{ exists texts, []. rewrite app_nil_r. split_and!; try done.
        - rewrite <- (app_nil_r (map _ _)). by eapply added_app.
        - intros ?? Hl. by apply Hnot in Hl. }
    apply bind_inv in R as [(chunks & w5 & Hm & R) | [(e' & Hm & ?) | (Hm & ?)]];
      apply loadStickers_calls in Hm as (cs4 & Hcs4 & Hq & Hld); simplify_eq.
    + apply bind_inv in R as [(packs & w6 & Hm & R) | [(e' & Hm & ?) | (Hm & ?)]];
        apply of_result_inv in Hm as (-> & _); simplify_eq.
      exists texts, cs4. split_and!; try done;
        first [ eapply added_app; [done|]; rewrite <- (app_nil_r cs4); by eapply added_app
              | intros ?? Hl; by apply Hnot in Hl ].
    + exists texts, cs4. split_and!; try done;
        first [ eapply added_app; [done|]; rewrite <- (app_nil_r cs4); by eapply added_app
              | intros ?? Hl; by apply Hnot in Hl ].
Qed.
End ConversionCalls.

Lemma calls_of_encode_blocks blocks :
  Forall is_encode_block blocks ->
  allocations (concat blocks) = omap destroyed (concat blocks)
  /\ omap result_pointer (concat blocks) = omap freed (concat blocks)
  /\ length (allocations (concat blocks)) = length blocks
  /\ length (encode_qualities (concat blocks)) = length blocks
  /\ overlay_texts (concat blocks) = []
  /\ omap (fun c => match c with
                    | call_decode _ _ _ | call_create_buffer_with_size _ _ => Some c
                    | _ => None
                    end) (concat blocks) = [].
Proof.
  unfold allocations, encode_qualities, overlay_texts.
  induction 1 as [|block blocks Hblock _ IH]; [done|].
  destruct Hblock as (width & height & quality & p & rp & size & -> & _).
  destruct IH as (IH1 & IH2 & IH3 & IH4 & IH5 & IH6).
  cbn [concat]. rewrite !omap_app.
  change (omap allocated (encode_block width height quality p rp size)) with [p].
  change (omap destroyed (encode_block width height quality p rp size)) with [p].
  change (omap result_pointer (encode_block width height quality p rp size)) with [rp].
  change (omap freed (encode_block width height quality p rp size)) with [rp].
  change (omap encode_quality (encode_block width height quality p rp size))
    with [quality].
  change (omap overlay_text (encode_block width height quality p rp size)) with (@nil string).
  rewrite IH1, IH2, IH5. cbn [app length]. rewrite <- IH1, IH3, IH4.
  split_and!; try done.
Qed.

Lemma calls_of_overlays texts :
  allocations (map call_addNumberToTray texts) = []
  /\ omap destroyed (map call_addNumberToTray texts) = []
  /\ omap result_pointer (map call_addNumberToTray texts) = []
  /\ omap freed (map call_addNumberToTray texts) = []
  /\ encode_qualities (map call_addNumberToTray texts) = [].
Proof.
  unfold allocations, encode_qualities. induction texts as [|text texts IH]; [done|].
  destruct IH as (IH1 & IH2 & IH3 & IH4 & IH5). cbn. done.
Qed.

Section ConversionFacts.
Context {S : Type} `{Libwebp S} {File Image : Type} `{Browser File Image}.

(** X6: a conversion that ends with ['load'] has released every buffer it
    allocated and freed every result the module reported, in the order of
    allocation, one buffer for each call of [encode]. *)
Theorem conversion_releases_every_buffer (trayFile : File) files (w : World S) trays packs :
  outcome_of (snd (convertImagesToPacks trayFile files w)) = Some (load trays packs) ->
  exists cs,
    added w (snd (convertImagesToPacks trayFile files w)) cs
    /\ allocations cs = omap destroyed cs
    /\ omap result_pointer cs = omap freed cs
    /\ length (allocations cs) = length (encode_qualities cs).
Proof.
  destruct (convertImagesToPacks trayFile files w) as [r w1] eqn:R. cbn. intros Hload.
  apply convertImagesToPacks_calls in R as (texts & cs & Hcs & _ & Hblocks).
  destruct (Hblocks trays packs Hload) as (blocks & _ & Hall & ->).
  exists (map call_addNumberToTray texts ++ concat blocks). split; [done|].
  destruct (calls_of_encode_blocks blocks Hall) as (H1 & H2 & H3 & H4 & _).
  destruct (calls_of_overlays texts) as (O1 & O2 & O3 & O4 & O5).
  unfold allocations, encode_qualities in *.
  rewrite !omap_app, O1, O2, O3, O4, O5. cbn [app].
  split_and!; [done | done |]. by rewrite H3, H4.
Qed.

(** X7: a conversion that ends with ['load'] has encoded at least once and
    at most twelve times for each sticker file. *)
Theorem conversion_encodes_each_sticker_1_to_12_times
    (trayFile : File) files (w : World S) trays packs :
  outcome_of (snd (convertImagesToPacks trayFile files w)) = Some (load trays packs) ->
  exists cs,
    added w (snd (convertImagesToPacks trayFile files w)) cs
    /\ length files <= length (encode_qualities cs) <= 12 * length files.
Proof.
  destruct (convertImagesToPacks trayFile files w) as [r w1] eqn:R. cbn. intros Hload.
  apply convertImagesToPacks_calls in R as (texts & cs & Hcs & _ & Hblocks).
  destruct (Hblocks trays packs Hload) as (blocks & Hn & Hall & ->).
  exists (map call_addNumberToTray texts ++ concat blocks). split; [done|].
  destruct (calls_of_encode_blocks blocks Hall) as (_ & _ & _ & H4 & _).
  destruct (calls_of_overlays texts) as (_ & _ & _ & _ & O5).
  rewrite encode_qualities_app, O5. cbn. by rewrite H4.
Qed.

(** X8: whatever the outcome of a conversion, every quality it passed to
    [encode] lies between 13 and 100. *)
Theorem conversion_qualities_between_13_and_100 (trayFile : File) files (w : World S) :
  exists cs,
    added w (snd (convertImagesToPacks trayFile files w)) cs
    /\ Forall (fun quality => (13 <= quality <= 100)%Z) (encode_qualities cs).
Proof.
  destruct (convertImagesToPacks trayFile files w) as [r w1] eqn:R. cbn.
  apply convertImagesToPacks_calls in R as (texts & cs & Hcs & Hq & _).
  exists (map call_addNumberToTray texts ++ cs). split; [done|].
  destruct (calls_of_overlays texts) as (_ & _ & _ & _ & O5).
  by rewrite encode_qualities_app, O5.
Qed.

(** X9: a finished conversion carries one tray for each pack. *)
Theorem one_tray_for_each_pack (trayFile : File) files (w : World S) trays packs :
  outcome_of (snd (convertImagesToPacks trayFile files w)) = Some (load trays packs) ->
  length trays = length packs.
Proof.
  intros Hload.
  destruct (pack_count_aux trayFile files w trays packs Hload) as (-> & _).
  apply finished_packs in Hload as (cs & tray & stickers & chunks & _ & _ & -> & _).
  unfold trays_for. destruct (Nat.eqb_spec (numOfPacks_for (length files)) 1) as [->|_].
  - done.
  - by rewrite length_map, length_seq.
Qed.
End ConversionFacts.

Section ConversionEvents.
Context {S : Type} `{Libwebp S} {File Image : Type} `{Browser File Image}.

(** The events of a loop over the stickers that threw. *)
Lemma loadStickers_throws (files : list File) i packs (w : World S) e w1 :
  loadStickers files i packs w = (Throw e, w1) ->
  (exists k,
      k < length files
      /\ emitted w1 = emitted w ++ replicate k stickerLoad
      /\ failed_with (S:=S) (File:=File) e)
  \/ exists stickers : list DataURL,
      length stickers <= length files /\ distribute stickers i packs = inl e.
Proof.
  revert i packs w.
  induction files as [|file files IH]; intros i packs w R; cbn [loadStickers] in R;
    [done|].
  apply bind_inv in R as [(sticker & w2 & Hm & R) | [(e' & Hm & ?) | (Hm & ?)]];
    pose proof Hm as Hp;
    apply processImageFile_stickers in Hm as (Hem & _); simplify_eq.
  2:{ left. exists 0. cbn. rewrite app_nil_r. split_and!; [lia | done |].
      by eexists _, _, _, _. }
  apply bind_inv in R as [([] & w3 & Hm & R) | [(e' & Hm & ?) | (Hm & ?)]];
    apply emit_inv in Hm as (? & Hem3 & _); simplify_eq.
  apply bind_inv in R as [(packs' & w4 & Hm & R) | [(e' & Hm & ?) | (Hm & ?)]];
    apply of_result_inv in Hm as (-> & [(? & Hpush & ?) | (? & Hpush & ?)]);
    simplify_eq.
  2:{ right. exists [sticker]. cbn [distribute length]. rewrite Hpush.
      split; [lia | done]. }
  apply IH in R as [(k & Hk & Hem' & Hfailed) | (stickers & Hshort & Hdist)].
  - left. exists (Datatypes.S k). cbn [length replicate]. split_and!; [lia | | done].
    rewrite Hem', Hem3, Hem. by rewrite <- app_assoc.
  - right. exists (sticker :: stickers). cbn [distribute length]. rewrite Hpush.
    split; [lia | done].
Qed.

(** X5: a conversion always returns to its caller.  It emits ['stickerLoad']
    some [k] times and then exactly one more event.  That is ['load'] after
    one ['stickerLoad'] for each file, or ['error'] with what
    [processImageFile] threw: for the tray file, before any sticker was
    processed, or for a sticker file, after fewer ['stickerLoad'] than
    there are files. *)
Theorem conversion_events (trayFile : File) files (w : World S) :
  fst (convertImagesToPacks trayFile files w) = Ok tt
  /\ exists k ev,
      emitted (snd (convertImagesToPacks trayFile files w))
      = emitted w ++ replicate k stickerLoad ++ [ev]
      /\ match ev with
         | load _ _ => k = length files
         | error e =>
             failed_with (S:=S) (File:=File) e
             /\ ((k = 0 /\ Jimp_read trayFile = inl e) \/ k < length files)
         | stickerLoad => False
         end.
Proof.
  destruct (convertImagesToPacks trayFile files w) as [r w1] eqn:R. cbn.
  pose proof R as Hrun.
  apply convertImagesToPacks_run in Hrun as (-> & k & ev & cs & Hem & _ & _ & Hev).
  split; [done|].
  destruct ev as [| trays packs | e]; [done | |].
  { exists k, (load trays packs). split; [done|]. by destruct Hev. }
  unfold convertImagesToPacks in R. cbv zeta in R.
  apply try_catch_inv in R as [(a & R & _) | [(e' & w2 & R & Hh) | (_ & ?)]]; [| |done].
  - exfalso.
    apply bind_inv in R as [(tray & w2 & Hm & R) | [(? & Hm & ?) | (Hm & ?)]];
      apply processImageFile_tray in Hm as (-> & _); simplify_eq.
    apply bind_inv in R as [(trays & w3 & Hm & R) | [(? & Hm & ?) | (Hm & ?)]];
      apply makeTrays_run in Hm as (_ & _); simplify_eq.
    apply bind_inv in R as [(chunks & w4 & Hm & R) | [(? & Hm & ?) | (Hm & ?)]];
      apply loadStickers_run in Hm as (_ & _); simplify_eq.
    apply bind_inv in R as [(packs & w5 & Hm & R) | [(? & Hm & ?) | (Hm & ?)]];
      apply of_result_inv in Hm as (-> & _); simplify_eq.
    apply emit_inv in R as (_ & Hem5 & _).
    rewrite Hem5 in Hem. rewrite app_assoc in Hem.
    apply (f_equal last) in Hem. rewrite !last_snoc in Hem. done.
  - apply emit_inv in Hh as (_ & Hem5 & _).
    assert (e' = e) as ->.
    { rewrite Hem5 in Hem. rewrite app_assoc in Hem.
      apply (f_equal last) in Hem. rewrite !last_snoc in Hem. by injection Hem. }
    apply bind_inv in R as [(tray & w3 & Hm & R) | [(? & Hm & ?) | (Hm & ?)]];
      pose proof Hm as Htray;
      apply processImageFile_tray in Hm as (-> & [(? & ? & ?) | (? & Hread & ?)]);
      simplify_eq.
    2:{ eexists 0, (error _). cbn. split; [done|]. split; [|by left].
        by eexists _, _, _, _. }
    apply bind_inv in R as [(trays & w4 & Hm & R) | [(? & Hm & ?) | (Hm & ?)]];
      apply makeTrays_run in Hm as (Hem3 & ? & ? & Htr); simplify_eq.
    2:{ exfalso. destruct (_ =? 1); by destruct Htr. }
    apply bind_inv in R as [(chunks & w5 & Hm & R) | [(? & Hm & ?) | (Hm & ?)]];
      simplify_eq.
    + exfalso.
      apply loadStickers_run in Hm as (_ & _ & _ & _ & _ & _ & _ & stickers & Hall & _ & Hdist).
      apply bind_inv in R as [(packs & w6 & Hm & R) | [(? & Hm & ?) | (Hm & ?)]];
        apply of_result_inv in Hm as (-> & [(? & Hbal & ?) | (? & Hbal & ?)]);
        simplify_eq.
      apply Forall2_length in Hall.
      eapply (balance_never_throws stickers (length files)); [lia | done..].
    + apply loadStickers_throws in Hm as [(k' & Hk' & Hem4 & Hfailed) | (stickers & Hshort & Hdist)].
      * eexists k', (error _). split; [by rewrite Hem5, Hem4, Hem3, <- app_assoc|].
        split; [done | by right].
      * exfalso. by eapply (distribute_never_throws stickers (length files)).
Qed.
End ConversionEvents.

(** ** balance and the slices *)





Lemma chunk_at {A} (chunks : list (list A)) j chunk :
  (forall i c, i < j -> chunks !! i = Some c -> length c = 30) ->
  chunks !! j = Some chunk ->
  chunk = take (length chunk) (drop (30 * j) (concat chunks)).
Proof.
  revert j. induction chunks as [|first chunks IH]; intros j Hfull Hj; [done|].
  destruct j as [|j]; cbn in Hj.
  - injection Hj as ->. rewrite Nat.mul_0_r, drop_0. cbn [concat].
    by rewrite take_app_length.
  - cbn [concat].
    assert (Hfirst : length first = 30) by (by apply (Hfull 0 first); [lia|]).
    replace (30 * Datatypes.S j) with (length first + 30 * j) by lia.
    rewrite drop_app_add. apply IH; [|done].
    intros i c Hi Hc. apply (Hfull (Datatypes.S i)); [lia | done].
Qed.

Lemma chunk_size_at {A} count n (chunks : list (list A)) i chunk :
  map length chunks = map (chunk_size count) (seq 0 n) ->
  chunks !! i = Some chunk ->
  length chunk = chunk_size count i /\ i < n.
Proof.
  intros Hsz Hi.
  assert (Hl : (map length chunks) !! i = Some (length chunk)).
  { change (map length chunks) with (length <$> chunks).
    by rewrite list_lookup_fmap, Hi. }
  rewrite Hsz in Hl.
  change (map (chunk_size count) (seq 0 n)) with (chunk_size count <$> seq 0 n) in Hl.
  rewrite list_lookup_fmap in Hl.
  destruct (seq 0 n !! i) as [i'|] eqn:Hseq; [|done].
  apply lookup_seq in Hseq as [-> ?]. cbn in Hl. by injection Hl as ->.
Qed.

(** X11: the loop that pushes sticker [i] to pack [Math.floor(i / 30)] cuts
    the stickers into slices: pack [j] is [stickers.slice(30 j, 30 j + 30)],
    for every [j] below the number of packs. *)
Theorem distribute_makes_slices {A} (stickers : list A) :
  distribute stickers 0 (replicate (numOfPacks_for (length stickers)) [])
  = inr (map (fun j => take 30 (drop (30 * j) stickers))
           (seq 0 (numOfPacks_for (length stickers)))).
Proof.
  set (n := numOfPacks_for (length stickers)).
  destruct (distribute_chunks stickers 0 (replicate n [])) as (chunks & -> & Hlen & Hcat & Hsz).
  - rewrite length_replicate. cbn.
    destruct (numOfPacks_for_bounds (length stickers)) as [Hz Hpos]. fold n in Hz, Hpos.
    destruct (decide (length stickers = 0)); lia.
  - rewrite length_replicate. apply sizes_of_empty_packs.
  - f_equal. rewrite length_replicate in Hlen, Hsz. cbn in Hsz.
    rewrite (concat_all_nil (replicate n [])) in Hcat
      by (intros j p Hj; by apply lookup_replicate in Hj as [-> _]).
    cbn in Hcat.
    destruct (numOfPacks_for_bounds (length stickers)) as [Hz Hpos]. fold n in Hz, Hpos.
    apply list_eq. intros j.
    change (map ?f ?l) with (f <$> l). rewrite list_lookup_fmap.
    destruct (decide (j < n)) as [Hj|Hj].
    2:{ rewrite !lookup_ge_None_2; [done | rewrite length_seq; lia | lia]. }
    rewrite lookup_seq_lt by done. cbn.
    destruct (lookup_lt_is_Some_2 chunks j) as [chunk Hchunk]; [lia|].
    rewrite Hchunk. f_equal.
    destruct (chunk_size_at _ _ _ _ _ Hsz Hchunk) as [Hsize _].
    rewrite (chunk_at chunks j chunk); [|
      intros i c Hi Hc; destruct (chunk_size_at _ _ _ _ _ Hsz Hc) as [-> ?];
      unfold chunk_size; lia | done].
    rewrite Hcat, Hsize. unfold chunk_size.
    destruct (decide (30 <= length stickers - 30 * j)).
    + by rewrite Nat.min_l by lia.
    + rewrite Nat.min_r by lia.
      rewrite !take_ge; [done | rewrite length_drop; lia..].
Qed.

Section SliceFacts.
Context {S : Type} `{Libwebp S} {File Image : Type} `{Browser File Image}.

(** X12: in a conversion that ends with ['load'], balancing reaches the last
    two packs only: every pack before them is the slice of 30 stickers at
    its place in the input. *)
Theorem packs_before_the_last_two_are_slices
    (trayFile : File) files (w : World S) trays packs :
  outcome_of (snd (convertImagesToPacks trayFile files w)) = Some (load trays packs) ->
  exists stickers,
    Forall2 (processed (S:=S)) files stickers
    /\ forall j,
        j + 2 < length packs ->
        packs !! j = Some (take 30 (drop (30 * j) stickers))
        /\ length (take 30 (drop (30 * j) stickers)) = 30.
Proof.
  intros Hload.
  apply finished_packs in Hload
    as (cs & tray & stickers & chunks & _ & _ & _ & _ & Hall & _ & Hdist & Hbal).
  exists stickers. split; [done|]. intros j Hj.
  destruct (assembled stickers chunks packs Hdist Hbal) as (Hlen & Hcat & Hsz & Hcases).
  destruct (numOfPacks_for_bounds (length stickers)) as [Hz Hpos].
  assert (length packs = length chunks /\ packs !! j = chunks !! j)
    as [Hpacks Hlookup].
  { destruct Hcases as [[_ ->] | (front & donor & final & -> & [[_ ->] | [_ ->]])];
      try done.
    rewrite length_app in Hj. cbn in Hj. split; [by rewrite !length_app|].
    by rewrite !lookup_app_l by lia. }
  rewrite Hpacks, Hlen in Hj.
  destruct (lookup_lt_is_Some_2 chunks j) as [chunk Hchunk]; [lia|].
  assert (Hfull : forall i c, i <= j -> chunks !! i = Some c -> length c = 30).
  { intros i c Hi Hc. destruct (chunk_size_at _ _ _ _ _ Hsz Hc) as [-> _].
    unfold chunk_size. destruct (decide (length stickers = 0)); lia. }
  pose proof (Hfull j chunk ltac:(lia) Hchunk) as Hthirty.
  pose proof (chunk_at chunks j chunk) as Hat.
  rewrite Hcat, Hthirty in Hat.
  rewrite Hlookup, Hchunk. rewrite <- Hat; [done | | done].
  intros i c Hi Hc. apply (Hfull i c); [lia | done].
Qed.
End SliceFacts.

(** ** The archive *)

Lemma string_app_cons c s1 s2 : String c s1 +:+ s2 = String c (s1 +:+ s2).
Proof. reflexivity. Qed.

Lemma string_app_nil s : "" +:+ s = s.
Proof. reflexivity. Qed.

Lemma substring_whole s : String.substring 0 (String.length s) s = s.
Proof. induction s as [|c s IH]; cbn; [done | by rewrite IH]. Qed.

Lemma substring_after stem suffix :
  String.substring (String.length stem) (String.length suffix) (stem +:+ suffix) = suffix.
Proof.
  induction stem as [|c stem IH].
  - rewrite string_app_nil. apply substring_whole.
  - rewrite string_app_cons. cbn. exact IH.
Qed.

Lemma string_length_app s1 s2 :
  String.length (s1 +:+ s2) = String.length s1 + String.length s2.
Proof.
  induction s1 as [|c s1 IH].
  - by rewrite string_app_nil.
  - rewrite string_app_cons. cbn. by rewrite IH.
Qed.

Lemma string_split n s :
  n <= String.length s ->
  s = String.substring 0 n s +:+ String.substring n (String.length s - n) s.
Proof.
  revert n. induction s as [|c s IH]; intros n Hn; cbn in Hn.
  - destruct n; [done | lia].
  - destruct n as [|n]; cbn.
    + rewrite string_app_nil. by rewrite substring_whole.
    + rewrite string_app_cons. f_equal. apply IH. lia.
Qed.

Lemma endsWith_spec s suffix :
  endsWith s suffix = true <-> exists stem, s = stem +:+ suffix.
Proof.
  unfold endsWith. split.
  - intros Hends. apply andb_prop in Hends as [Hlen Heq].
    apply Nat.leb_le in Hlen. apply String.eqb_eq in Heq.
    exists (String.substring 0 (String.length s - String.length suffix) s).
    pose proof (string_split (String.length s - String.length suffix) s) as Hsplit.
    replace (String.length s - (String.length s - String.length suffix))
      with (String.length suffix) in Hsplit by lia.
    rewrite Heq in Hsplit. apply Hsplit. lia.
  - intros [stem ->]. rewrite string_length_app. apply andb_true_intro. split.
    + apply Nat.leb_le. lia.
    + replace (String.length stem + String.length suffix - String.length suffix)
        with (String.length stem) by lia.
      rewrite substring_after. apply String.eqb_refl.
Qed.

Lemma prefix_cons c start c' s :
  String.prefix (String c start) (String c' s)
  = if Ascii.ascii_dec c c' then String.prefix start s else false.
Proof. reflexivity. Qed.

Lemma startsWith_spec s start :
  startsWith s start = true <-> exists rest, s = start +:+ rest.
Proof.
  unfold startsWith. revert s. induction start as [|c start IH]; intros s.
  - split; [intros _; exists s; reflexivity | intros _; by destruct s].
  - destruct s as [|c' s].
    + split; [intros Hp; cbv in Hp; done|].
      intros [rest Hrest]. rewrite string_app_cons in Hrest. done.
    + rewrite prefix_cons. destruct (Ascii.ascii_dec c c') as [->|Hne].
      * rewrite IH. split; intros [rest Hrest]; exists rest.
        -- by rewrite string_app_cons, <- Hrest.
        -- rewrite string_app_cons in Hrest. by injection Hrest.
      * split; [done|]. intros [rest Hrest].
        rewrite string_app_cons in Hrest. by injection Hrest.
Qed.

(** X13: the test of [unzip] accepts exactly the paths that end in [.png] or
    [.jpg] (in lower case) and do not begin with [__MACOSX]. *)
Theorem isImagePath_spec relativePath :
  isImagePath relativePath = true
  <-> (~ exists rest, relativePath = "__MACOSX" +:+ rest)
      /\ exists stem, relativePath = stem +:+ ".png" \/ relativePath = stem +:+ ".jpg".
Proof.
  unfold isImagePath. rewrite andb_true_iff, negb_true_iff, orb_true_iff.
  rewrite <- not_true_iff_false, startsWith_spec, !endsWith_spec.
  split; intros [Hmac Hext]; (split; [done|]).
  - destruct Hext as [[stem ?] | [stem ?]]; exists stem; auto.
  - destruct Hext as [stem [? | ?]]; [left | right]; by exists stem.
Qed.

Lemma zip_file_of_entry {Blob} (zip : list (string * Blob)) name blob :
  NoDup (map fst zip) -> In (name, blob) zip -> zip_file zip name = Some blob.
Proof.
  unfold zip_file. induction zip as [|[other b] zip IH]; cbn; [done|].
  intros Hnodup [[= -> ->] | Hin].
  - by rewrite String.eqb_refl.
  - apply NoDup_cons in Hnodup as [Hfresh Hnodup].
    destruct (String.eqb_spec other name) as [->|_]; [|by apply IH].
    exfalso. apply Hfresh. apply list_elem_of_In.
    change name with (fst (name, blob)). by apply in_map.
Qed.

Lemma all_blobs_of_entries {Blob} (zip entries : list (string * Blob)) :
  (forall entry, In entry entries -> zip_file zip (fst entry) = Some (snd entry)) ->
  all_blobs zip (map fst entries) = inr (map snd entries).
Proof.
  induction entries as [|[name blob] entries IH]; intros Hall; cbn; [done|].
  pose proof (Hall (name, blob) (or_introl eq_refl)) as Hfound. cbn in Hfound.
  unfold file_blob. rewrite Hfound.
  rewrite IH; [done|]. intros entry Hin. apply Hall. by right.
Qed.

Lemma filter_map_fst {Blob} (zip : list (string * Blob)) :
  List.filter isImagePath (map fst zip)
  = map fst (List.filter (fun entry => isImagePath (fst entry)) zip).
Proof.
  induction zip as [|[name blob] zip IH]; cbn; [done|].
  destruct (isImagePath name); cbn; by rewrite IH.
Qed.

Section UnzipMore.
Context {Data Blob : Type} `{JSZip Data Blob}.

(** X14: [unzip] passes on the error of [JSZip.loadAsync]; for an archive
    that loads it fails, with ['Less than 3 images are found!'], exactly
    when fewer than 3 entries pass the test, and otherwise returns as many
    sticker files as entries pass it. *)
Theorem unzip_outcomes (data : Data) :
  match loadAsync data with
  | inl e => unzip data = inl e
  | inr zip =>
      let count := length (List.filter isImagePath (map fst zip)) in
      if count <? 3
      then unzip data = inl (Error "Less than 3 images are found!")
      else exists unzipped,
          unzip data = inr unzipped /\ length (stickersFiles unzipped) = count
  end.
Proof.
  destruct (loadAsync data) as [e | zip] eqn:Hload.
  - unfold unzip. by rewrite Hload.
  - cbv zeta. destruct (Nat.ltb_spec (length (List.filter isImagePath (map fst zip))) 3)
      as [Hfew | Hmany].
    + unfold unzip. rewrite Hload.
      by destruct (Nat.ltb_spec (length (List.filter isImagePath (map fst zip))) 3); [|lia].
    + unfold unzip. rewrite Hload.
      destruct (Nat.ltb_spec (length (List.filter isImagePath (map fst zip))) 3); [lia|].
      destruct (List.filter isImagePath (map fst zip)) as [|first paths] eqn:Hpaths;
        [cbn in Hmany; lia|].
      destruct (all_blobs_found zip (first :: paths)) as (blobs & Hall & Hblobs).
      { intros path Hin. rewrite <- Hpaths in Hin. by apply filter_In in Hin as [? _]. }
      rewrite Hall.
      destruct blobs as [|blob others]; [by apply Forall2_length in Hblobs|].
      pose proof Hblobs as Hfirst. apply Forall2_cons in Hfirst as [Hfirst _].
      unfold file_blob. rewrite Hfirst.
      eexists. split; [done|]. cbn [stickersFiles].
      by apply Forall2_length in Hblobs.
Qed.

(** X15: when no two entries of the archive have the same name, the sticker
    files are the blobs of the entries that pass the test, in the order of
    the archive, and the tray file is the first of them. *)
Theorem unzip_returns_the_images (data : Data) zip unzipped :
  loadAsync data = inr zip ->
  NoDup (map fst zip) ->
  unzip data = inr unzipped ->
  stickersFiles unzipped
  = map snd (List.filter (fun entry => isImagePath (fst entry)) zip)
  /\ head (stickersFiles unzipped) = Some (trayFile unzipped)
  /\ 3 <= length (stickersFiles unzipped).
Proof.
  intros Hload Hnodup Hunzip. unfold unzip in Hunzip. rewrite Hload in Hunzip.
  destruct (Nat.ltb_spec (length (List.filter isImagePath (map fst zip))) 3)
    as [|Hmany]; [done|].
  rewrite filter_map_fst in Hunzip, Hmany.
  set (images := List.filter (fun entry => isImagePath (fst entry)) zip) in *.
  assert (Hblobs : all_blobs zip (map fst images) = inr (map snd images)).
  { apply all_blobs_of_entries. intros [name blob] Hin.
    apply zip_file_of_entry; [done|]. by apply filter_In in Hin as [? _]. }
  rewrite Hblobs in Hunzip.
  destruct images as [|[name blob] images'] eqn:Himages; [done|]. cbn in Hunzip.
  assert (Hfirst : zip_file zip name = Some blob).
  { apply zip_file_of_entry; [done|].
    assert (Hin : In (name, blob) images) by (rewrite Himages; by left).
    by apply filter_In in Hin as [? _]. }
  unfold file_blob in Hunzip. rewrite Hfirst in Hunzip. injection Hunzip as <-.
  cbn. rewrite length_map in Hmany. cbn in Hmany. rewrite length_map. done.
Qed.
End UnzipMore.

Section DecodeAndSizes.
Context {S : Type} `{Libwebp S} {File Image : Type} `{Browser File Image}.

(** X3: a decode call that returns.  The head of its URL is
    [data:image/] with letters a to z; it has sized its buffer and told
    [decode] the length of the decoded payload; every step returned and
    both heap accesses were in range ([decode_steps]), whatever number
    [decode] itself returned; and the PNG it returns is what the canvas
    made of [result], the copy of the [width * height * 4] bytes at the
    result pointer as the memory was when the module had reported the
    height.  The module it leaves is the one [destroy_buffer] left. *)
Theorem decode_returns_the_canvas_png imageUrl (w : World S) png w1 :
  convertWebpURLToPngURL imageUrl w = (Ok png, w1) ->
  matches_image_head (mime imageUrl) = true
  /\ exists p ret rp width height result m,
      added w w1
        [call_create_buffer_with_size (Z.of_nat (length (payload imageUrl))) p;
         call_decode p (Z.of_nat (length (payload imageUrl))) ret;
         call_get_decode_result_pointer rp;
         call_get_decode_result_width width;
         call_get_decode_result_height height;
         call_free_result rp;
         call_destroy_buffer p]
      /\ decode_steps (payload imageUrl) (module w) p ret rp width height result m
      /\ destroy_buffer p m = (inr tt, module w1)
      /\ Z.of_nat (length result) = (width * height * 4)%Z
      /\ putImageData_PNG result width height = inr (payload png)
      /\ mime png = "image/png".
Proof.
  intros R.
  apply convertWebpURLToPngURL_path in R
    as [(_ & [=] & _) | (Hhead & Hpath)].
  split; [done|].
  destruct Hpath
    as [(e' & [=] & _)
       | (p & ret & rp & width & height & result & m & Hsteps
          & [(e' & [=] & _) | (Hdestroy & Hcs & Hcanvas)])].
  exists p, ret, rp, width, height, result, m.
  destruct (putImageData_PNG result width height) as [e | bytes]; [done|].
  injection Hcanvas as Hpng. subst png. split_and!; try done.
  destruct Hsteps as (m1 & m3 & m4 & m5 & m6 & _ & _ & _ & _ & _ & _ & Hin & -> & _).
  unfold in_heap in Hin. unfold region.
  rewrite length_take, length_drop. lia.
Qed.

Lemma packs_have_3_to_30 (trayFile : File) files (w : World S) trays packs :
  3 <= length files ->
  outcome_of (snd (convertImagesToPacks trayFile files w)) = Some (load trays packs) ->
  Forall (fun pack => 3 <= length pack <= 30) packs.
Proof.
  intros Hmin Hload.
  apply finished_packs in Hload
    as (cs & tray & stickers & chunks & _ & _ & _ & _ & Hall & _ & Hdist & Hbal).
  pose proof (Forall2_length _ _ _ Hall) as Hcount. rewrite Hcount in Hmin.
  destruct (assembled stickers chunks packs Hdist Hbal) as (Hlen & _ & Hsz & Hcases).
  destruct Hcases as [[Hone ->] | (front & donor & final & -> & Hcases)].
  - destruct (numOfPacks_for_bounds (length stickers)) as [_ Hpos].
    specialize (Hpos ltac:(lia)).
    assert (Hn : numOfPacks_for (length stickers) = 1) by lia.
    rewrite Hn in Hsz, Hlen. cbn in Hsz.
    destruct chunks as [|chunk [|]]; cbn in Hlen; try lia.
    injection Hsz as Hsz. unfold chunk_size in Hsz.
    apply Forall_cons_2; [lia | apply Forall_nil_2].
  - apply sizes_of_last_two in Hsz as (Hn & Hfront & Hdonor & Hfinal & _).
    assert (Hfront' : Forall (fun pack : list DataURL => 3 <= length pack <= 30) front).
    { eapply Forall_impl; [exact Hfront|]. cbn. lia. }
    destruct Hcases as [[? ->] | [? ->]]; apply Forall_app; split; try done.
    + apply Forall_cons_2; [lia|]. apply Forall_cons_2; [lia|]. apply Forall_nil_2.
    + apply Forall_cons_2; [rewrite length_take; lia|].
      apply Forall_cons_2; [rewrite length_app, length_drop; lia|].
      apply Forall_nil_2.
Qed.
End DecodeAndSizes.

Section UnzipThenConvert.
Context {S : Type} `{Libwebp S} {Data Blob Image : Type} `{Browser Blob Image}
  `{JSZip Data Blob}.

(** X16: what [unzip] returns can be converted as it is: when the conversion
    of its tray file and sticker files ends with ['load'], every pack has
    between 3 and 30 stickers, and the first sticker of the first pack is
    what the tray file itself was encoded to. *)
Theorem unzipped_archive_converts (data : Data) unzipped (w : World S) trays packs :
  unzip data = inr unzipped ->
  outcome_of (snd (convertImagesToPacks (trayFile unzipped) (stickersFiles unzipped) w))
  = Some (load trays packs) ->
  Forall (fun pack => 3 <= length pack <= 30) packs
  /\ exists sticker rest others,
      packs = (sticker :: rest) :: others
      /\ processed (S:=S) (trayFile unzipped) sticker.
Proof.
  intros Hunzip Hload.
  assert (Hfiles : 3 <= length (stickersFiles unzipped)
                   /\ head (stickersFiles unzipped) = Some (trayFile unzipped)).
  { unfold unzip in Hunzip.
    destruct (loadAsync data) as [e | zip]; [done|].
    destruct (Nat.ltb_spec (length (List.filter isImagePath (map fst zip))) 3)
      as [|Hmany]; [done|].
    destruct (List.filter isImagePath (map fst zip)) as [|path paths] eqn:Hpaths;
      [done|].
    cbn [all_blobs] in Hunzip.
    destruct (file_blob zip path) as [e | blob]; [done|].
    destruct (all_blobs_found zip paths) as (blobs & Hblobs & Hall).
    { intros p' Hin. assert (Hin' : In p' (path :: paths)) by (by right).
      rewrite <- Hpaths in Hin'. by apply filter_In in Hin' as [? _]. }
    rewrite Hblobs in Hunzip. injection Hunzip as <-. cbn.
    apply Forall2_length in Hall. cbn in Hmany. split; [lia | done]. }
  destruct Hfiles as [Hmin Hhead].
  pose proof (packs_have_3_to_30 _ _ _ _ _ Hmin Hload) as Hsizes.
  split; [done|].
  apply finished_packs in Hload
    as (cs & tray & stickers & chunks & _ & _ & _ & _ & Hall & _ & Hdist & Hbal).
  destruct (assembled stickers chunks packs Hdist Hbal) as (_ & Hcat & _ & Hcases).
  assert (Hsame : concat packs = stickers).
  { rewrite <- Hcat.
    destruct Hcases as [[_ ->] | (front & donor & final & -> & [[_ ->] | [_ ->]])];
      try done.
    rewrite !concat_app. cbn. rewrite !app_nil_r. f_equal.
    rewrite app_assoc. by rewrite take_drop. }
  destruct (stickersFiles unzipped) as [|file files] eqn:Hfiles; [done|].
  injection Hhead as ->.
  destruct stickers as [|sticker stickers]; [by apply Forall2_length in Hall|].
  apply Forall2_cons in Hall as [Hfirst _].
  destruct packs as [|pack others]; [done|].
  apply Forall_cons in Hsizes as [Hpack _].
  destruct pack as [|sticker' rest]; [cbn in Hpack; lia|].
  cbn in Hsame. injection Hsame as -> _.
  by exists sticker, rest, others.
Qed.
End UnzipThenConvert.

(** ** The properties at work *)

(** A result region outside the memory: the copy-out throws, and
    [destroy_buffer] has no part in the call. *)
Lemma encode_that_throws_witness :
  exists cs,
    added (fresh 16)
      (snd (@convertImageDataToWebpURL Z (scripted (fun _ => 10%Z) 100) one_pixel 100
              (fresh 16))) cs
    /\ omap destroyed cs = []
    /\ (((forall d,
            @convertImageDataToWebpURL Z
              (@with_destroy_buffer Z (scripted (fun _ => 10%Z) 100) d) one_pixel 100
              (fresh 16)
            = (Throw RangeError,
               snd (@convertImageDataToWebpURL Z (scripted (fun _ => 10%Z) 100)
                      one_pixel 100 (fresh 16))))
         /\ ((allocations cs = []
              /\ @create_buffer Z (scripted (fun _ => 10%Z) 100)
                   (width one_pixel) (height one_pixel) (module (fresh 16))
                 = (inl RangeError,
                    module (snd (@convertImageDataToWebpURL Z
                                   (scripted (fun _ => 10%Z) 100) one_pixel 100
                                   (fresh 16)))))
             \/ exists p, allocations cs = [p]))
        \/ exists p rp size result m,
            cs = [call_create_buffer (width one_pixel) (height one_pixel) p;
                  call_encode p (width one_pixel) (height one_pixel) 100;
                  call_get_encode_result_pointer rp;
                  call_get_encode_result_size size;
                  call_free_result rp]
            /\ @encode_steps Z (scripted (fun _ => 10%Z) 100) one_pixel 100
                 (module (fresh 16)) p rp size result m
            /\ @destroy_buffer Z (scripted (fun _ => 10%Z) 100) p m
               = (inl RangeError,
                  module (snd (@convertImageDataToWebpURL Z
                                 (scripted (fun _ => 10%Z) 100) one_pixel 100
                                 (fresh 16))))).
Proof.
  eapply (@encode_that_throws Z (scripted (fun _ => 10%Z) 100) one_pixel 100 (fresh 16)).
  vm_compute. reflexivity.
Defined.

(** The same for the decode call. *)
Lemma decode_that_throws_witness :
  (matches_image_head (mime (mkDataURL "image/webp" [Byte.x00])) = false
   /\ RangeError = InvalidCharacterError
   /\ snd (@convertWebpURLToPngURL Z (scripted (fun _ => 10%Z) 100) nat nat numbered
             (mkDataURL "image/webp" [Byte.x00]) (fresh 16))
      = fresh 16)
  \/ (matches_image_head (mime (mkDataURL "image/webp" [Byte.x00])) = true
      /\ exists cs,
          added (fresh 16)
            (snd (@convertWebpURLToPngURL Z (scripted (fun _ => 10%Z) 100) nat nat
                    numbered (mkDataURL "image/webp" [Byte.x00]) (fresh 16))) cs
          /\ (((forall d,
                  @convertWebpURLToPngURL Z
                    (@with_destroy_buffer Z (scripted (fun _ => 10%Z) 100) d)
                    nat nat numbered (mkDataURL "image/webp" [Byte.x00]) (fresh 16)
                  = (Throw RangeError,
                     snd (@convertWebpURLToPngURL Z (scripted (fun _ => 10%Z) 100)
                            nat nat numbered (mkDataURL "image/webp" [Byte.x00])
                            (fresh 16))))
               /\ omap destroyed cs = []
               /\ ((allocations cs = []
                    /\ @create_buffer_with_size Z (scripted (fun _ => 10%Z) 100)
                         (Z.of_nat (length (payload (mkDataURL "image/webp" [Byte.x00]))))
                         (module (fresh 16))
                       = (inl RangeError,
                          module (snd (@convertWebpURLToPngURL Z
                                         (scripted (fun _ => 10%Z) 100) nat nat numbered
                                         (mkDataURL "image/webp" [Byte.x00])
                                         (fresh 16)))))
                   \/ exists p, allocations cs = [p]))
              \/ exists p ret rp width height result m,
                  @decode_steps Z (scripted (fun _ => 10%Z) 100)
                    (payload (mkDataURL "image/webp" [Byte.x00])) (module (fresh 16))
                    p ret rp width height result m
                  /\ allocations cs = [p]
                  /\ ((@destroy_buffer Z (scripted (fun _ => 10%Z) 100) p m
                       = (inl RangeError,
                          module (snd (@convertWebpURLToPngURL Z
                                         (scripted (fun _ => 10%Z) 100) nat nat numbered
                                         (mkDataURL "image/webp" [Byte.x00])
                                         (fresh 16))))
                       /\ releases cs = [call_free_result rp])
                      \/ (@destroy_buffer Z (scripted (fun _ => 10%Z) 100) p m
                          = (inr tt,
                             module (snd (@convertWebpURLToPngURL Z
                                            (scripted (fun _ => 10%Z) 100) nat nat
                                            numbered (mkDataURL "image/webp" [Byte.x00])
                                            (fresh 16))))
                          /\ releases cs = [call_free_result rp; call_destroy_buffer p]
                          /\ @putImageData_PNG nat nat numbered result width height
                             = inl RangeError)))).
Proof.
  eapply (@decode_that_throws Z (scripted (fun _ => 10%Z) 100) nat nat numbered
           (mkDataURL "image/webp" [Byte.x00]) (fresh 16)).
  vm_compute. reflexivity.
Defined.

Lemma decode_returns_witness :
  matches_image_head (mime (mkDataURL "image/webp" [Byte.x01])) = true
  /\ exists p ret rp width height result m,
      added (fresh 16)
        (snd (@convertWebpURLToPngURL Z ten_bytes nat nat numbered
                (mkDataURL "image/webp" [Byte.x01]) (fresh 16)))
        [call_create_buffer_with_size
           (Z.of_nat (length (payload (mkDataURL "image/webp" [Byte.x01])))) p;
         call_decode p
           (Z.of_nat (length (payload (mkDataURL "image/webp" [Byte.x01])))) ret;
         call_get_decode_result_pointer rp;
         call_get_decode_result_width width;
         call_get_decode_result_height height;
         call_free_result rp;
         call_destroy_buffer p]
      /\ @decode_steps Z ten_bytes (payload (mkDataURL "image/webp" [Byte.x01]))
           (module (fresh 16)) p ret rp width height result m
      /\ @destroy_buffer Z ten_bytes p m
         = (inr tt,
            module (snd (@convertWebpURLToPngURL Z ten_bytes nat nat numbered
                           (mkDataURL "image/webp" [Byte.x01]) (fresh 16))))
      /\ Z.of_nat (length result) = (width * height * 4)%Z
      /\ @putImageData_PNG nat nat numbered result width height
         = inr (payload (mkDataURL "image/png" [Byte.x01; Byte.x00; Byte.x00; Byte.x00]))
      /\ mime (mkDataURL "image/png" [Byte.x01; Byte.x00; Byte.x00; Byte.x00]) = "image/png".
Proof.
  eapply (@decode_returns_the_canvas_png Z ten_bytes nat nat numbered
           (mkDataURL "image/webp" [Byte.x01]) (fresh 16)).
  vm_compute. reflexivity.
Defined.

Lemma heap_write_then_copy_out_witness :
  let written := snd (@HEAP8_set Z [Byte.x01; Byte.x02] 3 (fresh 16)) in
  @copy_out Z 3 (Z.of_nat (length [Byte.x01; Byte.x02])) written
  = (Ok [Byte.x01; Byte.x02], written)
  /\ length (HEAP8 (module written)) = length (HEAP8 (module (fresh 16)))
  /\ native (module written) = native (module (fresh 16))
  /\ forall i : nat,
      (Z.of_nat i < 3 \/ 3 + Z.of_nat (length [Byte.x01; Byte.x02]) <= Z.of_nat i)%Z ->
      HEAP8 (module written) !! i = HEAP8 (module (fresh 16)) !! i.
Proof.
  eapply (@heap_write_then_copy_out Z [Byte.x01; Byte.x02] 3 (fresh 16)).
  vm_compute. reflexivity.
Defined.

Lemma conversion_releases_witness :
  exists cs,
    added (fresh 16) thirty_one_converted cs
    /\ allocations cs = omap destroyed cs
    /\ omap result_pointer cs = omap freed cs
    /\ length (allocations cs) = length (encode_qualities cs).
Proof.
  eapply (@conversion_releases_every_buffer Z ten_bytes nat nat numbered 1 thirty_one_files
           (fresh 16) [small_tray; small_tray]
           [replicate 28 small_sticker; replicate 3 small_sticker]).
  vm_compute. reflexivity.
Defined.

Lemma conversion_encodes_witness :
  exists cs,
    added (fresh 16) thirty_one_converted cs
    /\ length thirty_one_files <= length (encode_qualities cs)
       <= 12 * length thirty_one_files.
Proof.
  eapply (@conversion_encodes_each_sticker_1_to_12_times Z ten_bytes nat nat numbered 1
           thirty_one_files (fresh 16) [small_tray; small_tray]
           [replicate 28 small_sticker; replicate 3 small_sticker]).
  vm_compute. reflexivity.
Defined.

Lemma one_tray_for_each_pack_witness :
  length [small_tray; small_tray]
  = length [replicate 28 small_sticker; replicate 3 small_sticker].
Proof.
  eapply (@one_tray_for_each_pack Z ten_bytes nat nat numbered 1 thirty_one_files (fresh 16)).
  vm_compute. reflexivity.
Defined.


(** One array, [1; 2], that is both packs: [splice] takes the 2 off the
    array before the second spread reads it, and the 2 that the lists of
    [balance] would keep in the last pack is lost. *)
Example balance_in_place_of_an_array_twice :
  balance_in_place 2 [0; 0] [[1; 2]] = inr ([0; 1], [[1]; [2; 1]])
  /\ packs_of [0; 1] [[1]; [2; 1]] = [[1]; [2; 1]]
  /\ balance 2 (packs_of [0; 0] [[1; 2]]) = inr [[1]; [2; 1; 2]].
Proof. vm_compute. done. Qed.

(** A module whose [destroy_buffer] traps: the encode call throws that
    error after the result was freed, and the module is as the trap left
    it. *)
Example encode_with_a_destroy_buffer_that_traps :
  let run := @convertImageDataToWebpURL Z destroy_traps one_pixel 100 (fresh 16) in
  fst run = Throw (Error "destroy_buffer")
  /\ native (module (snd run)) = 777%Z
  /\ omap freed (calls (snd run)) = [0%Z]
  /\ omap destroyed (calls (snd run)) = [].
Proof. vm_compute. done. Qed.

(** A URL whose type is not [image/] and letters: [atob] throws, and no
    buffer was asked for. *)
Example decode_of_an_svg_url :
  @convertWebpURLToPngURL Z ten_bytes nat nat numbered
    (mkDataURL "image/svg+xml" [Byte.x01]) (fresh 16)
  = (Throw InvalidCharacterError, fresh 16).
Proof. vm_compute. reflexivity. Qed.

Lemma packs_before_the_last_two_witness :
  exists stickers,
    Forall2 (@processed Z ten_bytes nat nat numbered) sixty_one_files stickers
    /\ forall j,
        j + 2 < length [replicate 30 small_sticker; replicate 28 small_sticker;
                        replicate 3 small_sticker] ->
        [replicate 30 small_sticker; replicate 28 small_sticker; replicate 3 small_sticker]
          !! j
        = Some (take 30 (drop (30 * j) stickers))
        /\ length (take 30 (drop (30 * j) stickers)) = 30.
Proof.
  eapply (@packs_before_the_last_two_are_slices Z ten_bytes nat nat numbered 1
           sixty_one_files (fresh 16) [small_tray; small_tray; small_tray]).
  vm_compute. reflexivity.
Defined.

Lemma unzip_returns_the_images_witness :
  let zip := [("__MACOSX/._a.png", 9); ("readme.txt", 8); ("a.png", 1); ("b.jpg", 2);
              ("c.png", 3)] in
  stickersFiles (mkUnzipped 1 [1; 2; 3])
  = map snd (List.filter (fun entry => isImagePath (fst entry)) zip)
  /\ head (stickersFiles (mkUnzipped 1 [1; 2; 3])) = Some (trayFile (mkUnzipped 1 [1; 2; 3]))
  /\ 3 <= length (stickersFiles (mkUnzipped 1 [1; 2; 3])).
Proof.
  eapply (@unzip_returns_the_images _ nat listed
           [("__MACOSX/._a.png", 9); ("readme.txt", 8); ("a.png", 1); ("b.jpg", 2);
            ("c.png", 3)]).
  - reflexivity.
  - compute_done.
  - reflexivity.
Defined.

Lemma unzipped_archive_converts_witness :
  Forall (fun pack => 3 <= length pack <= 30)
    [[small_sticker; small_sticker; small_sticker]]
  /\ exists sticker rest others,
      [[small_sticker; small_sticker; small_sticker]] = (sticker :: rest) :: others
      /\ @processed Z ten_bytes nat nat numbered (trayFile (mkUnzipped 1 [1; 2; 3])) sticker.
Proof.
  eapply (@unzipped_archive_converts Z ten_bytes _ nat nat numbered listed
           [("__MACOSX/._a.png", 9); ("readme.txt", 8); ("a.png", 1); ("b.jpg", 2);
            ("c.png", 3)]
           (mkUnzipped 1 [1; 2; 3]) (fresh 16) [small_tray]).
  - reflexivity.
  - vm_compute. reflexivity.
Defined.

Lemma encodeLoop_finishes_witness :
  @encodeLoop Z ten_bytes nat nat numbered 20 (mkDataURL "image/png" []) one_pixel
    1.0%float (fresh 16)
  = @encodeLoop Z ten_bytes nat nat numbered rounds (mkDataURL "image/png" []) one_pixel
      1.0%float (fresh 16)
  /\ fst (@encodeLoop Z ten_bytes nat nat numbered rounds (mkDataURL "image/png" [])
            one_pixel 1.0%float (fresh 16)) <> Unfinished.
Proof.
  eapply (@encodeLoop_finishes Z ten_bytes nat nat numbered 20).
  vm_compute. lia.
Defined.
